(** * HMO Buddy chat backend: chunking, retrieval and prompt composition

    A shallow embedding of [backend/document_processor.py],
    [backend/vector_store.py], [backend/rag_service.py] and the retrieval
    step of [backend/improved_rag_service.py], followed by the properties
    of the chunker, the chunk annotator, the context retriever and the
    prompt composer. *)

From Stdlib Require Import ZArith NArith QArith Floats Lia List Bool String Ascii.
From Stdlib Require Import DecimalString.
From stdpp Require Import gmap strings list.

Set Warnings "-inexact-float".
Local Open Scope Z_scope.

(** ** Python built-ins used by the backend *)

Module Py.

(** A Python [str] is a sequence of Unicode code points. *)
Definition char : Type := N.
Definition str : Type := list char.

Definition ord (a : ascii) : char := N_of_ascii a.
Definition of_string (s : string) : str := map ord (list_ascii_of_string s).

Definition len {A : Type} (l : list A) : Z := Z.of_nat (List.length l).

(** The characters [str.strip()] removes: CPython's Unicode white space. *)
Definition is_space (c : char) : bool :=
  ((9 <=? c) && (c <=? 13) || (28 <=? c) && (c <=? 32)
   || (c =? 133) || (c =? 160) || (c =? 5760)
   || (8192 <=? c) && (c <=? 8202)
   || (c =? 8232) || (c =? 8233) || (c =? 8239) || (c =? 8287)
   || (c =? 12288))%N.

Fixpoint lstrip (s : str) : str :=
  match s with
  | c :: s' => if is_space c then lstrip s' else s
  | [] => []
  end.
Definition rstrip (s : str) : str := rev (lstrip (rev s)).
Definition strip (s : str) : str := rstrip (lstrip s).

(** Truth value of a sequence: [if chunk:]. *)
Definition truthy {A : Type} (l : list A) : bool :=
  match l with [] => false | _ => true end.

(** Slice bounds: a negative index counts from the end, and both bounds
    are clamped to [0, len]. *)
Definition slice_adjust (n i : Z) : Z :=
  if i <? 0 then Z.max 0 (i + n) else Z.min i n.

(** [s[start:stop]] *)
Definition slice {A : Type} (s : list A) (start stop : Z) : list A :=
  let n := len s in
  let a := slice_adjust n start in
  let b := slice_adjust n stop in
  take (Z.to_nat (b - a)) (drop (Z.to_nat a) s).

(** [s[start:]] *)
Definition slice_from {A : Type} (s : list A) (start : Z) : list A :=
  drop (Z.to_nat (slice_adjust (len s) start)) s.

Fixpoint rfind_scan (c : char) (s : str) (i lo hi best : Z) : Z :=
  match s with
  | [] => best
  | x :: s' =>
      rfind_scan c s' (i + 1) lo hi
        (if (lo <=? i) && (i <? hi) && (x =? c)%N then i else best)
  end.

(** [s.rfind(c, start, stop)] for a one-character [c]: the highest index
    in the adjusted range holding [c], or [-1]. *)
Definition rfind (s : str) (c : char) (start stop : Z) : Z :=
  let n := len s in
  let hi := if stop >? n then n
            else if stop <? 0 then Z.max 0 (stop + n) else stop in
  let lo := if start <? 0 then Z.max 0 (start + n) else start in
  rfind_scan c s 0 lo hi (-1).

(** [s[i]] for a non-negative index. *)
Definition at_index {A : Type} (s : list A) (i : Z) : option A :=
  if i <? 0 then None else s !! Z.to_nat i.

(** [sep.join(parts)] *)
Fixpoint join (sep : str) (parts : list str) : str :=
  match parts with
  | [] => []
  | [p] => p
  | p :: rest => p ++ sep ++ join sep rest
  end.

Definition nl : str := [10%N].

(** [str(z)] for an integer. *)
Definition str_of_int (z : Z) : str :=
  of_string (NilZero.string_of_int (Z.to_int z)).

(** Exceptions, and the outcome of a call that may raise one. *)
Inductive exn : Type :=
| KeyError (key : string)
| IndexError
| TypeError
| AttributeError
| ServiceError (msg : str)      (* raised by an external service *).

Inductive result (A : Type) : Type :=
| Ok (a : A)
| Raise (e : exn).
Arguments Ok {A} a.
Arguments Raise {A} e.

Definition rbind {A B : Type} (r : result A) (k : A -> result B) : result B :=
  match r with Ok a => k a | Raise e => Raise e end.

(** [posixpath.basename(p)]: what follows the last slash. *)
Definition basename (p : str) : str :=
  slice_from p (rfind p (ord "/") 0 (len p) + 1).

End Py.

(** ** Dictionaries as heap objects *)

Module Dict.
Import Py.

(** Metadata values are strings and integers. *)
Inductive value : Type := VStr (s : str) | VInt (z : Z).

(** How an f-string renders a value. *)
Definition format_value (v : value) : str :=
  match v with VStr s => s | VInt z => str_of_int z end.

Abbreviation Metadata := (gmap string value).

(** Dictionaries are mutable objects: a heap of them, addressed by
    position. Names such as [metadata] and [base_metadata] hold
    locations, so two names can denote one object. *)
Abbreviation loc := nat.
Abbreviation heap := (list Metadata).

Definition alloc (h : heap) (d : Metadata) : heap * loc :=
  (h ++ [d], List.length h).

Definition deref (h : heap) (l : loc) : Metadata := default ∅ (h !! l).

(** [d.update({...})] and [d[k] = v], in place. *)
Definition update (h : heap) (l : loc) (kvs : list (string * value)) : heap :=
  <[l := foldl (fun d kv => <[kv.1 := kv.2]> d) (deref h l) kvs]> h.
Definition setitem (h : heap) (l : loc) (k : string) (v : value) : heap :=
  <[l := <[k := v]> (deref h l)]> h.

(** [d.copy()]: a new object with the same items. *)
Definition copy (h : heap) (l : loc) : heap * loc := alloc h (deref h l).

(** [metadata or {}]: the caller's object when it is a non-empty
    dictionary, a new empty one otherwise. *)
Definition or_empty (h : heap) (metadata : option loc) : heap * loc :=
  match metadata with
  | Some l =>
      match h !! l with
      | Some d => if decide (d = ∅) then alloc h ∅ else (h, l)
      | None => alloc h ∅
      end
  | None => alloc h ∅
  end.

End Dict.

(** ** backend/document_processor.py *)

Module DocumentProcessor.
Import Py Dict.

Record t : Type := { chunk_size : Z; chunk_overlap : Z }.

(** The constructor stores both arguments as given. *)
Definition __init__ (chunk_size chunk_overlap : Z) : t :=
  {| chunk_size := chunk_size; chunk_overlap := chunk_overlap |}.

Definition default : t := __init__ 1000 200.

(** The value of [end] after the boundary search of one loop iteration. *)
Definition next_end (self : t) (text : str) (start : Z) : Z :=
  let text_length := len text in
  let end_ := start + chunk_size self in
  if end_ <? text_length then
    let sentence_end := rfind text (ord ".") start end_ in
    if negb (sentence_end =? -1)
       && (sentence_end >? start + chunk_size self / 2)
    then sentence_end + 1
    else
      let space := rfind text (ord " ") start end_ in
      if negb (space =? -1) && (space >? start + chunk_size self / 2)
      then space
      else end_
  else end_.

(** The [while] loop of [chunk_text]; [fuel] bounds the iterations, and
    [None] means the loop is still running when the fuel is spent. *)
Fixpoint chunk_loop (fuel : nat) (self : t) (text : str)
    (start : Z) (chunks : list str) : option (list str) :=
  match fuel with
  | O => None
  | S fuel' =>
      if start <? len text then
        let end_ := next_end self text start in
        let chunk := strip (slice text start end_) in
        let chunks := if truthy chunk then chunks ++ [chunk] else chunks in
        let start := end_ - chunk_overlap self in
        if (start <=? 0) || (start >=? len text) then Some chunks
        else chunk_loop fuel' self text start chunks
      else Some chunks
  end.

Definition chunk_text (fuel : nat) (self : t) (text : str)
    : option (list str) :=
  chunk_loop fuel self text 0 [].

(** The windows [(start, end)] the loop visits, one per iteration. *)
Fixpoint chunk_windows_from (fuel : nat) (self : t) (text : str)
    (start : Z) : option (list (Z * Z)) :=
  match fuel with
  | O => None
  | S fuel' =>
      if start <? len text then
        let end_ := next_end self text start in
        let start' := end_ - chunk_overlap self in
        if (start' <=? 0) || (start' >=? len text) then Some [(start, end_)]
        else cons (start, end_) <$> chunk_windows_from fuel' self text start'
      else Some []
  end.

Definition chunk_windows (fuel : nat) (self : t) (text : str)
    : option (list (Z * Z)) :=
  chunk_windows_from fuel self text 0.

(** The chunks a list of windows contributes: trimmed slices, blank ones
    dropped. *)
Definition emit (text : str) (ws : list (Z * Z)) : list str :=
  List.filter truthy (map (fun w => strip (slice text (fst w) (snd w))) ws).

(** *** Chunk annotation: the metadata step of [process_document] *)

Record ProcessedChunk : Type := { text : str; metadata : loc }.

Fixpoint annotate_loop (h : heap) (base_metadata : loc) (total : Z)
    (i : Z) (chunks : list str) (processed_chunks : list ProcessedChunk)
    : heap * list ProcessedChunk :=
  match chunks with
  | [] => (h, processed_chunks)
  | chunk :: rest =>
      let '(h, chunk_metadata) := copy h base_metadata in
      let h := setitem h chunk_metadata "chunk_index" (VInt i) in
      let h := setitem h chunk_metadata "total_chunks" (VInt total) in
      annotate_loop h base_metadata total (i + 1) rest
        (processed_chunks
           ++ [{| text := chunk; metadata := chunk_metadata |}])
  end.

(** Lines 140-157 of [process_document]. *)
Definition annotate (h : heap) (file_path : str) (metadata : option loc)
    (chunks : list str) : heap * list ProcessedChunk :=
  let file_name := basename file_path in
  let '(h, base_metadata) := or_empty h metadata in
  let h := update h base_metadata
             [("source"%string, VStr file_name);
              ("file_path"%string, VStr file_path)] in
  annotate_loop h base_metadata (len chunks) 0 chunks [].

(** [process_document], given what [load_document] returned for the path:
    an exception is logged and re-raised, a text is chunked and
    annotated. *)
Definition process_document (fuel : nat) (self : t) (h : heap)
    (file_path : str) (loaded : result str) (metadata : option loc)
    : option (heap * result (list ProcessedChunk)) :=
  match loaded with
  | Raise e => Some (h, Raise e)
  | Ok text =>
      match chunk_text fuel self text with
      | None => None
      | Some chunks =>
          let '(h, processed_chunks) := annotate h file_path metadata chunks in
          Some (h, Ok processed_chunks)
      end
  end.

End DocumentProcessor.

(** ** External services and the calls made to them *)

Module Effects.
Import Py.

(** The numbers the index reports: Python floats, with the two integer
    constants the retriever mixes in. *)
Class PyNum (num : Type) : Type := {
  zero : num;
  one : num;
  sub : num -> num -> num;
  geb : num -> num -> bool;
  sub_one_zero : sub one zero = one
}.

(** IEEE 754 binary64, the arithmetic Python runs. *)
#[export] Instance float_num : PyNum float := {|
  zero := 0%float;
  one := 1%float;
  sub := PrimFloat.sub;
  geb := fun a b => PrimFloat.leb b a;
  sub_one_zero := eq_refl
|}.

(** Exact decimal arithmetic. *)
#[export] Instance Q_num : PyNum Q := {|
  zero := 0%Q;
  one := 1%Q;
  sub := Qminus;
  geb := fun a b => Qle_bool b a;
  sub_one_zero := eq_refl
|}.

Inductive field (A : Type) : Type :=
| Missing            (* the key is absent *)
| PyNone             (* the key holds None *)
| Val (a : A).
Arguments Missing {A}.
Arguments PyNone {A}.
Arguments Val {A} a.

Record Message : Type := { role : str; content : str }.

Section Services.
Context {num : Type}.

(** What [collection.query] returns. *)
Record QueryResult : Type := {
  documents : field (list (list str));
  metadatas : field (list (list (option Dict.Metadata)));
  distances : field (list (list num))
}.

(** What [ollama.chat] returns: a mapping whose message content is read
    when not streaming, an iterable of such mappings when streaming. *)
Record ChatResponse : Type := {
  message_content : option str;
  fragments : list (option str)
}.

(** The three collaborators: embedding gateway, similarity index and
    completion gateway. *)
Record Services : Type := {
  ollama_embeddings : string -> str -> result (option (list num));
  collection_count : result Z;
  collection_query :
    list (list num) -> Z -> option Dict.Metadata -> result QueryResult;
  ollama_chat : string -> list Message -> bool -> result ChatResponse
}.

(** Calls that leave the process. *)
Inductive event : Type :=
| EvEmbeddings (model : string) (prompt : str)
| EvCount
| EvQuery (embeddings : list (list num)) (n_results : Z)
| EvChat (model : string) (messages : list Message) (stream : bool).

(** A computation: the calls it made, and its value or exception. *)
Definition M (A : Type) : Type := list event * result A.

Definition ret {A : Type} (a : A) : M A := ([], Ok a).
Definition lift {A : Type} (r : result A) : M A := ([], r).
Definition call {A : Type} (ev : event) (r : result A) : M A := ([ev], r).
Definition bind {A B : Type} (m : M A) (k : A -> M B) : M B :=
  match m with
  | (tr, Ok a) => let '(tr', r) := k a in (tr ++ tr', r)
  | (tr, Raise e) => (tr, Raise e)
  end.
(** [try: m except Exception as e: h e] *)
Definition catch {A : Type} (m : M A) (h : exn -> M A) : M A :=
  match m with
  | (tr, Ok a) => (tr, Ok a)
  | (tr, Raise e) => let '(tr', r) := h e in (tr ++ tr', r)
  end.
End Services.
Arguments QueryResult num : clear implicits.
Arguments ChatResponse : clear implicits.
Arguments Services num : clear implicits.
Arguments event num : clear implicits.
Arguments M num A : clear implicits.

End Effects.

Declare Scope py_scope.
Delimit Scope py_scope with py.
Notation "'let*' x ':=' m 'in' k" := (Effects.bind m (fun x => k))
  (at level 10, x name, m at level 100, k at level 200) : py_scope.
Notation "'let?' x ':=' r 'in' k" := (Py.rbind r (fun x => k))
  (at level 10, x name, r at level 100, k at level 200) : py_scope.

Local Open Scope py_scope.

(** ** backend/vector_store.py *)

Module VectorStore.
Import Py Effects.

Record t : Type := { embedding_model : string }.

Section Methods.
Context {num : Type} (svc : Services num).

(** [response['embedding']]; the handler logs and re-raises. *)
Definition _generate_embedding (self : t) (text : str) : M num (list num) :=
  catch
    (let* response :=
       call (EvEmbeddings (embedding_model self) text)
            (ollama_embeddings svc (embedding_model self) text) in
     match response with
     | Some embedding => ret embedding
     | None => lift (Raise (KeyError "embedding"))
     end)
    (fun e => lift (Raise e)).

(** [len(results['documents'][0]) if results['documents'] else 0] *)
Definition actual_results (results : QueryResult num) : result Z :=
  match documents results with
  | Missing => Raise (KeyError "documents")
  | PyNone | Val [] => Ok 0
  | Val (row :: _) => Ok (len row)
  end.

Definition search (self : t) (query : str) (n_results : Z)
    (where_ : option Dict.Metadata) : M num (QueryResult num) :=
  catch
    (let* query_embedding := _generate_embedding self query in
     let* collection_count := call EvCount (collection_count svc) in
     let adjusted_n_results := Z.min n_results collection_count in
     let* results :=
       call (EvQuery [query_embedding] adjusted_n_results)
            (collection_query svc [query_embedding] adjusted_n_results where_) in
     let* _ := lift (actual_results results) in
     ret results)
    (fun e => lift (Raise e)).
End Methods.

End VectorStore.

(** ** backend/rag_service.py *)

Module RAGService.
Import Py Effects.

Record t : Type := {
  llm_model : string;
  embedding_model : string;
  vector_store : VectorStore.t
}.

Section Methods.
Context {num : Type} `{PyNum num} (svc : Services num).

Record ContextRecord : Type := {
  text : str;
  metadata : option Dict.Metadata;
  similarity : num
}.

(** [results['distances'][0][i] if 'distances' in results else 0] *)
Definition distance_at (results : QueryResult num) (i : nat) : result num :=
  match distances results with
  | Missing => Ok zero
  | PyNone => Raise TypeError
  | Val [] => Raise IndexError
  | Val (row :: _) =>
      match row !! i with Some d => Ok d | None => Raise IndexError end
  end.

(** [results['metadatas'][0][i] if results['metadatas'] else {}] *)
Definition metadata_at (results : QueryResult num) (i : nat)
    : result (option Dict.Metadata) :=
  match metadatas results with
  | Missing => Raise (KeyError "metadatas")
  | PyNone | Val [] => Ok (Some ∅)
  | Val (row :: _) =>
      match row !! i with Some m => Ok m | None => Raise IndexError end
  end.

(** [for i, doc in enumerate(results['documents'][0]): ...] *)
Fixpoint retrieve_loop (results : QueryResult num) (min_similarity : num)
    (i : nat) (docs : list str) (contexts : list ContextRecord)
    : result (list ContextRecord) :=
  match docs with
  | [] => Ok contexts
  | doc :: docs' =>
      let? distance := distance_at results i in
      let similarity := sub one distance in
      if geb similarity min_similarity then
        let? metadata := metadata_at results i in
        retrieve_loop results min_similarity (S i) docs'
          (contexts ++ [{| text := doc; metadata := metadata;
                           similarity := similarity |}])
      else retrieve_loop results min_similarity (S i) docs' contexts
  end.

Definition extract_contexts (results : QueryResult num)
    (min_similarity : num) : result (list ContextRecord) :=
  match documents results with
  | Missing => Raise (KeyError "documents")
  | PyNone | Val [] => Ok []
  | Val (docs :: _) =>
      if truthy docs then retrieve_loop results min_similarity 0 docs []
      else Ok []
  end.

Definition retrieve_context (self : t) (query : str) (n_results : Z)
    (min_similarity : num) : M num (list ContextRecord) :=
  catch
    (let* results :=
       VectorStore.search svc (vector_store self) query n_results None in
     lift (extract_contexts results min_similarity))
    (fun _ => ret []).

(** [f"[Source: {ctx['metadata'].get('source', 'Unknown')}]\n{ctx['text']}"] *)
Definition context_section (ctx : ContextRecord) : result str :=
  match metadata ctx with
  | None => Raise AttributeError
  | Some md =>
      let source := match md !! "source"%string with
                    | Some v => Dict.format_value v
                    | None => of_string "Unknown"
                    end in
      Ok (of_string "[Source: " ++ source ++ of_string "]" ++ nl ++ text ctx)
  end.

Fixpoint context_sections (contexts : list ContextRecord)
    : result (list str) :=
  match contexts with
  | [] => Ok []
  | ctx :: rest =>
      let? s := context_section ctx in
      let? ss := context_sections rest in
      Ok (s :: ss)
  end.

Definition default_system_prompt : str :=
  of_string "You are HMO Buddy, a helpful assistant for Health Maintenance Organization (HMO) queries."
  ++ nl ++ nl ++ of_string "INSTRUCTIONS:" ++ nl
  ++ of_string "1. Use the CONTEXT below to answer the user's question" ++ nl
  ++ of_string "2. If the context contains the answer, provide a clear and specific response based on it" ++ nl
  ++ of_string "3. If the context doesn't contain relevant information, say so clearly and then provide general guidance if appropriate" ++ nl
  ++ of_string "4. Always be helpful, clear, and professional".

Definition format_prompt_with_context (query : str)
    (contexts : list ContextRecord) (system_prompt : option str)
    : result str :=
  if negb (truthy contexts) then Ok query
  else
    let? sections := context_sections contexts in
    let context_text := join (nl ++ nl) sections in
    let system_prompt := default default_system_prompt system_prompt in
    Ok (system_prompt ++ nl ++ nl
        ++ of_string "CONTEXT:" ++ nl ++ context_text ++ nl ++ nl
        ++ of_string "USER QUESTION:" ++ nl ++ query ++ nl ++ nl
        ++ of_string "ANSWER:").

(** What the caller gets back: the whole answer, or the fragments the
    generator yields. *)
Inductive ChatOutput : Type :=
| Text (answer : str)
| Fragments (parts : list str).

Definition read_response (stream : bool) (response : ChatResponse)
    : result ChatOutput :=
  if stream then Ok (Fragments (omap id (fragments response)))
  else match message_content response with
       | Some c => Ok (Text c)
       | None => Raise (KeyError "message")
       end.

Definition user_message (content : str) : Message :=
  {| role := of_string "user"; content := content |}.
Definition system_message (content : str) : Message :=
  {| role := of_string "system"; content := content |}.

Definition generate_response (self : t) (query : str) (use_context : bool)
    (n_context_docs : Z) (system_prompt : option str) (stream : bool)
    : M num ChatOutput :=
  catch
    (let* contexts :=
       if use_context
       then retrieve_context self query n_context_docs zero
       else ret [] in
     let* prompt :=
       if truthy contexts
       then lift (format_prompt_with_context query contexts system_prompt)
       else ret query in
     let messages := [user_message prompt] in
     let* response :=
       call (EvChat (llm_model self) messages stream)
            (ollama_chat svc (llm_model self) messages stream) in
     lift (read_response stream response))
    (fun e => lift (Raise e)).

Definition context_system_message (context_text : str) : str :=
  of_string "You are HMO Buddy, a helpful assistant for Health Maintenance Organization (HMO) queries."
  ++ nl ++ nl ++ of_string "IMPORTANT INSTRUCTIONS:" ++ nl
  ++ of_string "- Answer questions using the CONTEXT provided below" ++ nl
  ++ of_string "- If the context contains relevant information, base your answer on it" ++ nl
  ++ of_string "- Be specific and cite information from the context when applicable" ++ nl
  ++ of_string "- If the context doesn't contain the answer, clearly state that and provide general guidance if appropriate" ++ nl
  ++ of_string "- Always be helpful, professional, and accurate" ++ nl ++ nl
  ++ of_string "CONTEXT:" ++ nl ++ context_text ++ nl.

Definition no_context_system_message : str :=
  of_string "You are HMO Buddy, a helpful assistant for Health Maintenance Organization (HMO) queries. "
  ++ of_string "Provide accurate and helpful information based on your knowledge.".

(** The message list [chat] builds before it calls the model. *)
Definition chat_messages (query : str)
    (conversation_history : option (list Message))
    (contexts : list ContextRecord) : result (list Message) :=
  let messages := [] in
  let? messages :=
    if truthy contexts then
      let? sections := context_sections contexts in
      let context_text := join (nl ++ nl) sections in
      Ok (messages ++ [system_message (context_system_message context_text)])
    else
      Ok (messages ++ [system_message no_context_system_message]) in
  let messages :=
    match conversation_history with
    | Some history =>
        if truthy history then messages ++ slice_from history (-10)
        else messages
    | None => messages
    end in
  Ok (messages ++ [user_message query]).

Definition chat (self : t) (query : str)
    (conversation_history : option (list Message)) (use_context : bool)
    (n_context_docs : Z) (stream : bool) : M num ChatOutput :=
  catch
    (let* contexts :=
       if use_context
       then retrieve_context self query n_context_docs zero
       else ret [] in
     let* messages :=
       lift (chat_messages query conversation_history contexts) in
     let* response :=
       call (EvChat (llm_model self) messages stream)
            (ollama_chat svc (llm_model self) messages stream) in
     lift (read_response stream response))
    (fun e => lift (Raise e)).
End Methods.
Arguments ContextRecord num : clear implicits.
Arguments ChatOutput : clear implicits.

End RAGService.

(** ** backend/improved_rag_service.py: retrieval *)

Module ImprovedRAGService.
Import Py Effects.
Import RAGService (ContextRecord, text, metadata, similarity,
                   distance_at, metadata_at).

Record t : Type := {
  llm_model : string;
  embedding_model : string;
  vector_store : VectorStore.t
}.

Section Methods.
Context {num : Type} `{PyNum num} (svc : Services num).

(** The loop reads the metadata of every document before it filters,
    and the log line it formats calls [metadata.get]. *)
Fixpoint retrieve_loop (results : QueryResult num) (min_similarity : num)
    (i : nat) (docs : list str) (contexts : list (ContextRecord num))
    : result (list (ContextRecord num)) :=
  match docs with
  | [] => Ok contexts
  | doc :: docs' =>
      let? distance := distance_at results i in
      let similarity := sub one distance in
      let? metadata := metadata_at results i in
      let? _ := match metadata with
                | Some _ => Ok tt
                | None => Raise AttributeError
                end in
      if geb similarity min_similarity then
        retrieve_loop results min_similarity (S i) docs'
          (contexts ++ [{| text := doc; metadata := metadata;
                           similarity := similarity |}])
      else retrieve_loop results min_similarity (S i) docs' contexts
  end.

Definition extract_contexts (results : QueryResult num)
    (min_similarity : num) : result (list (ContextRecord num)) :=
  match documents results with
  | Missing => Raise (KeyError "documents")
  | PyNone | Val [] => Ok []
  | Val (docs :: _) =>
      if truthy docs then retrieve_loop results min_similarity 0 docs []
      else Ok []
  end.

Definition retrieve_context (self : t) (query : str) (n_results : Z)
    (min_similarity : num) : M num (list (ContextRecord num)) :=
  catch
    (let* results :=
       VectorStore.search svc (vector_store self) query n_results None in
     lift (extract_contexts results min_similarity))
    (fun _ => ret []).
End Methods.

End ImprovedRAGService.

Import Py Effects.

(** ** Vocabulary of the statements *)

(** A valid chunking configuration. *)
Definition valid_config (self : DocumentProcessor.t) : Prop :=
  0 < DocumentProcessor.chunk_size self /\
  0 <= DocumentProcessor.chunk_overlap self < DocumentProcessor.chunk_size self.

(** Position [i] lies in one of the windows. *)
Definition covered (ws : list (Z * Z)) (i : Z) : Prop :=
  exists w, w ∈ ws /\ w.1 <= i < w.2.

(** [ceil(a / b)] for positive [b]. *)
Definition ceil_div (a b : Z) : Z := (a + b - 1) / b.

(** The least advance of the cursor the boundary search allows:
    [chunk_size // 2 + 1 - chunk_overlap]. *)
Definition min_stride (self : DocumentProcessor.t) : Z :=
  DocumentProcessor.chunk_size self / 2 + 1 - DocumentProcessor.chunk_overlap self.

(** The cut of the window starting at [start]: just after the last full
    stop lying strictly between the midpoint and the hard limit; failing
    that, at the last space lying there; failing that, at the hard limit. *)
Definition cut_rule (self : DocumentProcessor.t) (text : str) (start : Z)
    : Prop :=
  let mid := start + DocumentProcessor.chunk_size self / 2 in
  let limit := start + DocumentProcessor.chunk_size self in
  let e := DocumentProcessor.next_end self text start in
  ((exists p, mid < p < limit /\ at_index text p = Some (ord ".")) ->
   mid < e - 1 < limit /\ at_index text (e - 1) = Some (ord ".") /\
   forall j, e - 1 < j < limit -> at_index text j <> Some (ord "."))
  /\
  ((forall p, mid < p < limit -> at_index text p <> Some (ord ".")) ->
   (exists p, mid < p < limit /\ at_index text p = Some (ord " ")) ->
   mid < e < limit /\ at_index text e = Some (ord " ") /\
   forall j, e < j < limit -> at_index text j <> Some (ord " "))
  /\
  ((forall p, mid < p < limit -> at_index text p <> Some (ord ".")) ->
   (forall p, mid < p < limit -> at_index text p <> Some (ord " ")) ->
   e = limit).

(** ** Vocabulary of the retrieval statements *)

Section RetrievalVocabulary.
Import Effects.
Context {num : Type} `{PyNum num}.

(** The first row of a result field, the one answering the single
    query embedding. *)
Definition first_row {A : Type} (f : field (list (list A))) (row : list A)
    : Prop :=
  exists rest, f = Val (row :: rest).


(** Both gateway calls and the index query succeed, and the index
    answers [results]. *)
Definition index_returns (svc : Services num) (vs : VectorStore.t)
    (query : str) (n_results : Z) (results : QueryResult num) : Prop :=
  exists embedding count,
    ollama_embeddings svc (VectorStore.embedding_model vs) query
      = Ok (Some embedding) /\
    collection_count svc = Ok count /\
    collection_query svc [embedding] (Z.min n_results count) None
      = Ok results.

(** The embedding call fails: the service raises, or its response
    carries no embedding. *)
Definition embedding_fails (svc : Services num) (vs : VectorStore.t)
    (query : str) (e : exn) : Prop :=
  ollama_embeddings svc (VectorStore.embedding_model vs) query = Raise e
  \/ (ollama_embeddings svc (VectorStore.embedding_model vs) query = Ok None
      /\ e = KeyError "embedding").




End RetrievalVocabulary.

(** The turns of the caller's history that [chat] forwards: the last ten. *)
Definition recent_turns (conversation_history : option (list Message))
    : list Message :=
  match conversation_history with
  | Some history => slice_from history (-10)
  | None => []
  end.

(** The messages [chat] sends when no context record qualifies. *)
Definition no_context_messages (query : str)
    (conversation_history : option (list Message)) : list Message :=
  [RAGService.system_message RAGService.no_context_system_message]
  ++ recent_turns conversation_history
  ++ [RAGService.user_message query].

(** The dictionary chunk number [i] of [total] gets from the base [d]. *)
Definition annotated (d : Dict.Metadata) (total i : Z)
    : Dict.Metadata :=
  <["total_chunks"%string := Dict.VInt total]>
    (<["chunk_index"%string := Dict.VInt i]> d).

(** The base dictionary after [update]. *)
Definition with_provenance (d : Dict.Metadata) (file_path : str)
    : Dict.Metadata :=
  <["file_path"%string := Dict.VStr file_path]>
    (<["source"%string := Dict.VStr (basename file_path)]> d).

(** ** Sample collaborators *)

Module Samples.
Import Effects.

Definition vs : VectorStore.t :=
  {| VectorStore.embedding_model := "mxbai-embed-large" |}.

Definition rag : RAGService.t :=
  {| RAGService.llm_model := "llama3.2";
     RAGService.embedding_model := "mxbai-embed-large";
     RAGService.vector_store := vs |}.

Definition meta (source : string) : option Dict.Metadata :=
  Some {[ "source"%string := Dict.VStr (of_string source) ]}.

Definition answer : ChatResponse :=
  {| message_content := Some (of_string "ok"); fragments := [] |}.

(** An index holding three chunks at distances 0.1, 0.6 and 1.3. *)
Definition three_results {num : Type} (d1 d2 d3 : num) : QueryResult num :=
  {| documents := Val [[of_string "copay"; of_string "referral";
                        of_string "dental"]];
     metadatas := Val [[meta "a.txt"; meta "b.txt"; meta "c.txt"]];
     distances := Val [[d1; d2; d3]] |}.


Definition serving {num : Type} (embedding : list num)
    (results : QueryResult num) : Services num :=
  {| ollama_embeddings := fun _ _ => Ok (Some embedding);
     collection_count := Ok 3;
     collection_query := fun _ _ _ => Ok results;
     ollama_chat := fun _ _ _ => Ok answer |}.

(** The embedding service is unreachable. *)
Definition embedding_down {num : Type} (results : QueryResult num)
    : Services num :=
  {| ollama_embeddings :=
       fun _ _ => Raise (ServiceError (of_string "connection refused"));
     collection_count := Ok 3;
     collection_query := fun _ _ _ => Ok results;
     ollama_chat := fun _ _ _ => Ok answer |}.

End Samples.

(** ** Vocabulary of the further properties *)

(** A chunk as the chunker emits it: not empty, with no white space at
    either end. *)
Definition trimmed (s : str) : Prop :=
  s <> [] /\
  (forall c, head s = Some c -> is_space c = false) /\
  (forall c, last s = Some c -> is_space c = false).

(** [c] occurs in [text] as a run of consecutive characters. *)
Definition substring_of (c text : str) : Prop :=
  exists pre post, text = pre ++ c ++ post.

(** All characters are white space. *)
Definition blank (s : str) : Prop := forall c, c ∈ s -> is_space c = true.

(** The items of the dictionary [process_document] starts from: the
    caller's, or none. *)
Definition caller_items (h : Dict.heap) (metadata : option Dict.loc)
    : Dict.Metadata :=
  match metadata with
  | Some l => Dict.deref h l
  | None => ∅
  end.

(** The four keys [process_document] writes. *)
Definition annotation_keys : list string :=
  ["source"; "file_path"; "chunk_index"; "total_chunks"]%string.

(** The record passes the similarity floor. *)
Definition passes_floor {num : Type} `{PyNum num} (min_similarity : num)
    (c : RAGService.ContextRecord num) : Prop :=
  geb (RAGService.similarity c) min_similarity = true.

(** The calls a retrieval may make, in order: one embedding call, then at
    most one count, then at most one query with the clamped number of
    results. *)
Definition retrieval_trace {num : Type} (model : string) (query : str)
    (n_results : Z) (tr : list (event num)) : Prop :=
  tr = [EvEmbeddings model query]
  \/ tr = [EvEmbeddings model query; EvCount]
  \/ exists embedding count,
       tr = [EvEmbeddings model query; EvCount;
             EvQuery [embedding] (Z.min n_results count)].

(** ** Further sample collaborators *)

Module MoreSamples.
Import Effects.

(** The embedding service answers, the index cannot be queried. *)
Definition query_down {num : Type} (embedding : list num) : Services num :=
  {| ollama_embeddings := fun _ _ => Ok (Some embedding);
     collection_count := Ok 3;
     collection_query :=
       fun _ _ _ => Raise (ServiceError (of_string "index unavailable"));
     ollama_chat := fun _ _ _ => Ok Samples.answer |}.

(** Retrieval works, the language model is unreachable. *)
Definition chat_down {num : Type} (embedding : list num)
    (results : QueryResult num) : Services num :=
  {| ollama_embeddings := fun _ _ => Ok (Some embedding);
     collection_count := Ok 3;
     collection_query := fun _ _ _ => Ok results;
     ollama_chat :=
       fun _ _ _ => Raise (ServiceError (of_string "model not loaded")) |}.

End MoreSamples.

(** The context record carries a metadata mapping. *)
Definition has_metadata {num : Type} (c : RAGService.ContextRecord num)
    : Prop :=
  is_Some (RAGService.metadata c).

(** ** backend/vector_store.py: the write path *)

Module VectorStoreWrite.
Import Py Effects.

Section Methods.
Context {num : Type}.

(** The collaborators of the write path: the identifier generator and the
    index's [add]. *)
Record Writer : Type := {
  uuid4 : nat -> str;              (* the identifier drawn at the k-th call *)
  collection_add :
    list (list num) -> list str -> option (list Dict.Metadata) -> list str
    -> result unit
}.

(** Calls that leave the process: those of the read path, and the one
    write. *)
Inductive wevent : Type :=
| Read (ev : event num)
| EvAdd (embeddings : list (list num)) (documents : list str)
    (metadatas : option (list Dict.Metadata)) (ids : list str).

Definition W (A : Type) : Type := list wevent * result A.

Definition wret {A : Type} (a : A) : W A := ([], Ok a).
Definition wraise {A : Type} (e : exn) : W A := ([], Raise e).
Definition wcall {A : Type} (ev : wevent) (r : result A) : W A := ([ev], r).
Definition reading {A : Type} (m : M num A) : W A := (map Read m.1, m.2).
Definition wbind {A B : Type} (m : W A) (k : A -> W B) : W B :=
  match m with
  | (tr, Ok a) => let '(tr', r) := k a in (tr ++ tr', r)
  | (tr, Raise e) => (tr, Raise e)
  end.
Definition wcatch {A : Type} (m : W A) (h : exn -> W A) : W A :=
  match m with
  | (tr, Ok a) => (tr, Ok a)
  | (tr, Raise e) => let '(tr', r) := h e in (tr ++ tr', r)
  end.

Context (svc : Services num) (w : Writer).

(** [[self._generate_embedding(text) for text in texts]] *)
Fixpoint generate_embeddings (self : VectorStore.t) (texts : list str)
    : M num (list (list num)) :=
  match texts with
  | [] => ret []
  | text :: rest =>
      bind (VectorStore._generate_embedding svc self text) (fun embedding =>
      bind (generate_embeddings self rest) (fun embeddings =>
      ret (embedding :: embeddings)))
  end.

(** [[str(uuid.uuid4()) for _ in texts]] *)
Definition generate_ids (texts : list str) : list str :=
  map (uuid4 w) (seq 0 (List.length texts)).

Definition add_documents (self : VectorStore.t) (texts : list str)
    (metadatas : option (list Dict.Metadata)) (ids : option (list str))
    : W unit :=
  wcatch
    (wbind (reading (generate_embeddings self texts)) (fun embeddings =>
     let ids := match ids with
                | None => generate_ids texts
                | Some ids => ids
                end in
     wcall (EvAdd embeddings texts metadatas ids)
           (collection_add w embeddings texts metadatas ids)))
    (fun e => wraise e).
End Methods.
Arguments Writer num : clear implicits.
Arguments wevent num : clear implicits.
Arguments W num A : clear implicits.

End VectorStoreWrite.

(** ** backend/load_documents.py: the loader's chunker *)

Module DocumentLoader.
Import Py Dict.

Record t : Type := { chunk_size : Z; chunk_overlap : Z }.

Fixpoint is_prefix (sub s : str) : bool :=
  match sub, s with
  | [], _ => true
  | c :: sub', x :: s' => (c =? x)%N && is_prefix sub' s'
  | _ :: _, [] => false
  end.

Fixpoint rfind_sub_scan (sub s : str) (i lo hi best : Z) : Z :=
  match s with
  | [] => best
  | _ :: s' =>
      rfind_sub_scan sub s' (i + 1) lo hi
        (if (lo <=? i) && (i + len sub <=? hi) && is_prefix sub s
         then i else best)
  end.

(** [s.rfind(sub, start, stop)] for a non-empty [sub]: the highest index
    at which [sub] occurs wholly inside the adjusted range, or [-1]. *)
Definition rfind_sub (s sub : str) (start stop : Z) : Z :=
  let n := len s in
  let hi := if stop >? n then n
            else if stop <? 0 then Z.max 0 (stop + n) else stop in
  let lo := if start <? 0 then Z.max 0 (start + n) else start in
  rfind_sub_scan sub s 0 lo hi (-1).

(** The value of [end] after the boundary search of one loop iteration. *)
Definition next_end (self : t) (text : str) (start : Z) : Z :=
  let text_length := len text in
  let end_ := start + chunk_size self in
  if end_ <? text_length then
    let paragraph_break := rfind_sub text (nl ++ nl) start end_ in
    if negb (paragraph_break =? -1) && (paragraph_break >? start)
    then paragraph_break
    else
      let sentence_break :=
        Z.max (Z.max (rfind_sub text (of_string ". ") start end_)
                     (rfind_sub text (of_string "! ") start end_))
              (rfind_sub text (of_string "? ") start end_) in
      if negb (sentence_break =? -1) && (sentence_break >? start)
      then sentence_break + 1
      else end_
  else end_.

(** The metadata of a chunk: a copy of the caller's with three keys set. *)
Definition chunk_metadata (metadata : Metadata) (chunk_index start end_ : Z)
    : Metadata :=
  <["char_end"%string := VInt end_]>
    (<["char_start"%string := VInt start]>
       (<["chunk_index"%string := VInt chunk_index]> metadata)).

(** The [while] loop of [chunk_text]; [None] means the loop is still
    running when the fuel is spent. *)
Fixpoint chunk_loop (fuel : nat) (self : t) (text : str) (metadata : Metadata)
    (start : Z) (chunks : list (str * Metadata))
    : option (list (str * Metadata)) :=
  match fuel with
  | O => None
  | S fuel' =>
      if start <? len text then
        let end_ := next_end self text start in
        let chunk := strip (slice text start end_) in
        let chunks :=
          if truthy chunk
          then chunks ++ [(chunk, chunk_metadata metadata (len chunks)
                                    start end_)]
          else chunks in
        let start :=
          if end_ <? len text then end_ - chunk_overlap self
          else len text in
        chunk_loop fuel' self text metadata start chunks
      else Some chunks
  end.

Definition chunk_text (fuel : nat) (self : t) (text : str)
    (metadata : Metadata) : option (list (str * Metadata)) :=
  chunk_loop fuel self text metadata 0 [].

End DocumentLoader.

(** ** backend/improved_rag_service.py: the messages of [chat] *)

Module ImprovedChat.
Import Py Effects.
Import RAGService (ContextRecord, text, metadata, similarity).

Section Methods.
Context {num : Type}.

(** [f"[Document {i} from {source}]:\n{ctx['text']}"] *)
Definition context_section (i : Z) (ctx : ContextRecord num) : result str :=
  match metadata ctx with
  | None => Raise AttributeError
  | Some md =>
      let source := match md !! "source"%string with
                    | Some v => Dict.format_value v
                    | None => of_string "Unknown"
                    end in
      Ok (of_string "[Document " ++ str_of_int i ++ of_string " from "
          ++ source ++ of_string "]:" ++ nl ++ text ctx)
  end.

(** [for i, ctx in enumerate(contexts, 1): ...] *)
Fixpoint context_sections (i : Z) (contexts : list (ContextRecord num))
    : result (list str) :=
  match contexts with
  | [] => Ok []
  | ctx :: rest =>
      let? s := context_section i ctx in
      let? ss := context_sections (i + 1) rest in
      Ok (s :: ss)
  end.

Definition rule : str := concat (replicate 50 (of_string "=")).

Definition system_message (context_text : str) : str :=
  of_string "You are a helpful assistant. Use the following documents to answer questions:"
  ++ nl ++ nl ++ rule ++ nl ++ context_text ++ nl ++ rule ++ nl ++ nl
  ++ of_string "When answering:" ++ nl
  ++ of_string "- Base your response on the documents above when relevant" ++ nl
  ++ of_string "- Reference specific documents when appropriate" ++ nl
  ++ of_string "- Use general knowledge to supplement if needed, but be clear about it".

(** The message list [chat] builds before it calls the model. *)
Definition chat_messages (query : str)
    (conversation_history : option (list Message))
    (contexts : list (ContextRecord num)) : result (list Message) :=
  let messages := [] in
  let? messages :=
    if truthy contexts then
      let? sections := context_sections 1 contexts in
      let context_text := join (nl ++ nl) sections in
      Ok (messages
            ++ [RAGService.system_message (system_message context_text)])
    else Ok messages in
  let messages :=
    match conversation_history with
    | Some history => if truthy history then messages ++ history else messages
    | None => messages
    end in
  Ok (messages ++ [RAGService.user_message query]).
End Methods.

End ImprovedChat.

(** The history [ImprovedRAGService.chat] forwards: all of it. *)
Definition all_turns (conversation_history : option (list Message))
    : list Message :=
  default [] conversation_history.

(** The embedding gateway answers [text] with [embedding]. *)
Definition embeds {num : Type} (svc : Services num) (vs : VectorStore.t)
    (text : str) (embedding : list num) : Prop :=
  ollama_embeddings svc (VectorStore.embedding_model vs) text
  = Ok (Some embedding).

(** The embedding calls made for [texts], as events of the write path. *)
Definition embedding_calls {num : Type} (vs : VectorStore.t)
    (texts : list str) : list (VectorStoreWrite.wevent num) :=
  map (fun text =>
         VectorStoreWrite.Read
           (EvEmbeddings (VectorStore.embedding_model vs) text))
      texts.

(** The three keys the loader's chunker writes. *)
Definition loader_keys : list string :=
  ["chunk_index"; "char_start"; "char_end"]%string.

(** ** Sample collaborators of the write path *)

Module WriteSamples.
Import Effects.

(** An embedding service that rejects the empty prompt. *)
Definition embeds_nonempty {num : Type} (embedding : list num)
    : Services num :=
  {| ollama_embeddings :=
       fun _ text =>
         if truthy text then Ok (Some embedding)
         else Raise (ServiceError (of_string "empty prompt"));
     collection_count := Ok 3;
     collection_query :=
       fun _ _ _ => Raise (ServiceError (of_string "index unavailable"));
     ollama_chat := fun _ _ _ => Ok Samples.answer |}.

Definition writer {num : Type} : VectorStoreWrite.Writer num :=
  {| VectorStoreWrite.uuid4 :=
       fun k => of_string "id-" ++ str_of_int (Z.of_nat k);
     VectorStoreWrite.collection_add := fun _ _ _ _ => Ok tt |}.

End WriteSamples.

(** What holds of the chunk the loader returns at position [j]: it is a
    trimmed piece of the text, cut from the window its metadata records,
    numbered [j], and it carries the caller's other metadata. *)
Definition loader_chunk_ok (text : str) (metadata : Dict.Metadata) (j : nat)
    (p : str * Dict.Metadata) : Prop :=
  trimmed p.1 /\
  substring_of p.1 text /\
  p.2 !! "chunk_index"%string = Some (Dict.VInt (Z.of_nat j)) /\
  (exists s e,
     p.2 !! "char_start"%string = Some (Dict.VInt s) /\
     p.2 !! "char_end"%string = Some (Dict.VInt e) /\
     p.1 = strip (slice text s e)) /\
  forall k, k ∉ loader_keys -> p.2 !! k = metadata !! k.

(** The calls of one answer: those of the retrieval, when it is on, then
    at most one call of the language model, with [sent] saying what a
    message list handed to it looks like. *)
Definition answer_trace {num : Type} (self : RAGService.t) (query : str)
    (use_context : bool) (n_context_docs : Z) (stream : bool)
    (sent : list Message -> Prop) (tr : list (event num)) : Prop :=
  exists retrieval completion,
    tr = retrieval ++ completion /\
    (if use_context
     then retrieval_trace
            (VectorStore.embedding_model (RAGService.vector_store self))
            query n_context_docs retrieval
     else retrieval = []) /\
    (completion = []
     \/ exists messages,
          completion = [EvChat (RAGService.llm_model self) messages stream]
          /\ sent messages).

(** * Properties *)

(** ** Python built-ins *)

Lemma len_nonneg {A : Type} (l : list A) : 0 <= len l.
Proof. unfold len. lia. Qed.

Lemma len_nil_iff {A : Type} (l : list A) : len l = 0 <-> l = [].
Proof.
  unfold len. destruct l as [|x l]; simpl; split; intros Hl; try done; lia.
Qed.

Lemma truthy_true {A : Type} (l : list A) : l <> [] -> truthy l = true.
Proof. now destruct l. Qed.

Lemma at_index_lookup {A : Type} (s : list A) (k : nat) :
  at_index s (Z.of_nat k) = s !! k.
Proof.
  unfold at_index. destruct (Z.ltb_spec (Z.of_nat k) 0); [lia|].
  now rewrite Nat2Z.id.
Qed.

(** The scan returns either the initial candidate, when no position of the
    range holds [c], or the last position of the range that does. *)
Lemma rfind_scan_spec (c : char) (s : str) :
  forall i lo hi best,
    let r := rfind_scan c s i lo hi best in
    (r = best /\
     forall (k : nat) x, s !! k = Some x -> lo <= i + Z.of_nat k < hi -> x <> c)
    \/ (exists k : nat,
          r = i + Z.of_nat k /\ s !! k = Some c /\ lo <= r < hi /\
          forall (k' : nat) x, (k < k')%nat -> s !! k' = Some x ->
                               lo <= i + Z.of_nat k' < hi -> x <> c).
Proof.
  induction s as [|x s IH]; intros i lo hi best; simpl.
  - left. split; [reflexivity|]. intros k y Hk. discriminate.
  - set (hit := (lo <=? i) && (i <? hi) && (x =? c)%N).
    destruct (IH (i + 1) lo hi (if hit then i else best))
      as [[Hr Hnone] | (k & Hr & Hk & Hrange & Hlast)].
    + destruct hit eqn:Hhit.
      * right. exists 0%nat. subst hit.
        apply andb_prop in Hhit as [Hhit Hx].
        apply andb_prop in Hhit as [Hlo Hhi].
        apply N.eqb_eq in Hx. subst x.
        repeat split; try (rewrite Hr; lia).
        intros [|k'] y Hlt Hy Hin; [lia|]. simpl in Hy.
        apply (Hnone k' y Hy). lia.
      * left. split; [exact Hr|].
        intros [|k] y Hy Hin; simpl in Hy.
        -- injection Hy as <-. subst hit. intros ->.
           rewrite N.eqb_refl, andb_true_r in Hhit.
           apply andb_false_iff in Hhit as [Hf|Hf];
             [apply Z.leb_gt in Hf | apply Z.ltb_ge in Hf]; lia.
        -- apply (Hnone k y Hy). lia.
    + right. exists (S k). repeat split; try (rewrite Hr; lia); [exact Hk|].
      intros [|k'] y Hlt Hy Hin; [lia|]. simpl in Hy.
      apply (Hlast k' y); [lia|exact Hy|lia].
Qed.

(** [rfind] on a range inside the text: [-1] when the character does not
    occur in [start, stop), else its last occurrence there. *)
Lemma rfind_spec (text : str) (c : char) (start stop : Z) :
  0 <= start -> 0 <= stop <= len text ->
  let r := rfind text c start stop in
  (r = -1 /\ forall j, start <= j < stop -> at_index text j <> Some c)
  \/ (start <= r < stop /\ at_index text r = Some c /\
      forall j, r < j < stop -> at_index text j <> Some c).
Proof.
  intros Hstart Hstop. unfold rfind.
  destruct (Z.gtb_spec stop (len text)); [lia|].
  destruct (Z.ltb_spec stop 0); [lia|].
  destruct (Z.ltb_spec start 0); [lia|].
  destruct (rfind_scan_spec c text 0 start stop (-1))
    as [[Hr Hnone] | (k & Hr & Hk & Hrange & Hlast)]; cbv zeta.
  - left. split; [exact Hr|]. intros j Hj Hat.
    unfold at_index in Hat. destruct (Z.ltb_spec j 0); [discriminate|].
    apply (Hnone (Z.to_nat j) c Hat); [lia|reflexivity].
  - right. rewrite Z.add_0_l in Hr. rewrite Hr in *.
    split; [lia|]. split; [now rewrite at_index_lookup|].
    + intros j Hj Hat. unfold at_index in Hat.
      destruct (Z.ltb_spec j 0); [discriminate|].
      apply (Hlast (Z.to_nat j) c); [lia|exact Hat|lia|reflexivity].
Qed.

Lemma slice_all {A : Type} (s : list A) (stop : Z) :
  len s <= stop -> slice s 0 stop = s.
Proof.
  intros Hstop. unfold slice, slice_adjust. pose proof (len_nonneg s).
  destruct (Z.ltb_spec stop 0); [lia|]. change (0 <? 0) with false. cbv iota.
  rewrite (Z.min_l 0) by lia. rewrite (Z.min_r stop) by lia.
  rewrite Z.sub_0_r. change (Z.to_nat 0) with 0%nat. rewrite drop_0.
  unfold len. rewrite Nat2Z.id. apply firstn_all.
Qed.

Lemma slice_empty {A : Type} (s : list A) : slice s 0 0 = [].
Proof.
  unfold slice, slice_adjust. change (0 <? 0) with false. cbv iota.
  pose proof (len_nonneg s). rewrite (Z.min_l 0) by lia. reflexivity.
Qed.


(** ** The chunker *)

Section Chunker.
Import DocumentProcessor.
Variables (self : DocumentProcessor.t) (text : str).

Lemma chunk_windows_from_S (fuel : nat) (start : Z) :
  chunk_windows_from (S fuel) self text start =
  if start <? len text then
    if (next_end self text start - chunk_overlap self <=? 0)
       || (next_end self text start - chunk_overlap self >=? len text)
    then Some [(start, next_end self text start)]
    else cons (start, next_end self text start)
           <$> chunk_windows_from fuel self text
                 (next_end self text start - chunk_overlap self)
  else Some [].
Proof. reflexivity. Qed.

Lemma emit_cons (w : Z * Z) (ws : list (Z * Z)) :
  emit text (w :: ws) =
  (if truthy (strip (slice text w.1 w.2))
   then [strip (slice text w.1 w.2)] else []) ++ emit text ws.
Proof.
  unfold emit. simpl.
  now destruct (truthy (strip (slice text w.1 w.2))).
Qed.

(** The loop emits exactly the trimmed, non-blank slices of the windows
    it visits. *)
Lemma chunk_loop_windows (fuel : nat) :
  forall start chunks,
    chunk_loop fuel self text start chunks =
    (fun ws => chunks ++ emit text ws)
      <$> chunk_windows_from fuel self text start.
Proof.
  induction fuel as [|fuel IH]; intros start chunks; [reflexivity|].
  rewrite chunk_windows_from_S. simpl.
  destruct (start <? len text); [|simpl; now rewrite app_nil_r].
  set (e := next_end self text start).
  destruct ((e - chunk_overlap self <=? 0)
            || (e - chunk_overlap self >=? len text)).
  - simpl. rewrite emit_cons. simpl. rewrite app_nil_r.
    destruct (truthy (strip (slice text start e)));
      [reflexivity | now rewrite app_nil_r].
  - rewrite IH.
    destruct (chunk_windows_from fuel self text (e - chunk_overlap self))
      as [ws|]; [|reflexivity].
    simpl. rewrite emit_cons. simpl.
    destruct (truthy (strip (slice text start e))); simpl;
      [now rewrite <- app_assoc | reflexivity].
Qed.

Lemma chunk_text_windows (fuel : nat) :
  chunk_text fuel self text = emit text <$> chunk_windows fuel self text.
Proof. unfold chunk_text, chunk_windows. now rewrite chunk_loop_windows. Qed.

(** More fuel never changes a result. *)
Lemma chunk_windows_from_mono (fuel : nat) :
  forall fuel' start ws,
    (fuel <= fuel')%nat ->
    chunk_windows_from fuel self text start = Some ws ->
    chunk_windows_from fuel' self text start = Some ws.
Proof.
  induction fuel as [|fuel IH]; intros fuel' start ws Hle Hws; [discriminate|].
  destruct fuel' as [|fuel']; [lia|].
  rewrite chunk_windows_from_S in *.
  destruct (start <? len text); [|exact Hws].
  destruct ((next_end self text start - chunk_overlap self <=? 0)
            || (next_end self text start - chunk_overlap self >=? len text));
    [exact Hws|].
  destruct (chunk_windows_from fuel self text
              (next_end self text start - chunk_overlap self))
    as [ws'|] eqn:Hrec; [|discriminate].
  rewrite (IH fuel' _ ws'); [exact Hws|lia|exact Hrec].
Qed.

(** Every accepted cut lies strictly past the midpoint of the window. *)
Lemma next_end_past_midpoint (start : Z) :
  0 < chunk_size self ->
  start + chunk_size self / 2 < next_end self text start.
Proof.
  intros Hcs. unfold next_end.
  assert (chunk_size self / 2 < chunk_size self)
    by (apply Z.div_lt_upper_bound; lia).
  destruct (start + chunk_size self <? len text); [|lia].
  destruct (negb _ && (_ >? _)) eqn:Hdot.
  - apply andb_prop in Hdot as [_ Hgt]. apply Z.gtb_lt in Hgt. lia.
  - clear Hdot. destruct (negb _ && (_ >? _)) eqn:Hsp; [|lia].
    apply andb_prop in Hsp as [_ Hgt]. apply Z.gtb_lt in Hgt. lia.
Qed.

(** No cut lies beyond the hard limit. *)
Lemma next_end_le_limit (start : Z) :
  0 <= start -> 0 <= chunk_size self ->
  next_end self text start <= start + chunk_size self.
Proof.
  intros Hstart Hcs. unfold next_end.
  destruct (Z.ltb_spec (start + chunk_size self) (len text)) as [Hlt|]; [|lia].
  assert (Hse : rfind text (ord ".") start (start + chunk_size self)
                < start + chunk_size self)
    by (destruct (rfind_spec text (ord ".") start (start + chunk_size self))
          as [[-> _] | [? _]]; lia).
  assert (Hsp : rfind text (ord " ") start (start + chunk_size self)
                < start + chunk_size self)
    by (destruct (rfind_spec text (ord " ") start (start + chunk_size self))
          as [[-> _] | [? _]]; lia).
  revert Hse Hsp.
  generalize (rfind text (ord ".") start (start + chunk_size self)).
  generalize (rfind text (ord " ") start (start + chunk_size self)).
  intros sp se Hse Hsp.
  destruct (negb (se =? -1) && _); [lia|].
  destruct (negb (sp =? -1) && _); lia.
Qed.

(** The last window is cut at the hard limit. *)
Lemma next_end_at_tail (start : Z) :
  len text <= start + chunk_size self ->
  next_end self text start = start + chunk_size self.
Proof.
  intros Htail. unfold next_end.
  now destruct (Z.ltb_spec (start + chunk_size self) (len text)); [lia|].
Qed.

Hypothesis Hsize : 0 < chunk_size self.
Hypothesis Hoverlap : 0 <= chunk_overlap self <= chunk_size self / 2.

(** With an overlap of at most half the chunk size the cursor advances
    by at least [min_stride] per iteration: the loop ends, within the
    iteration bound, and its windows leave no gap. *)
Lemma windows_progress (fuel : nat) :
  forall start,
    0 <= start ->
    Z.max 0 (len text - start) < Z.of_nat fuel ->
    exists ws,
      chunk_windows_from fuel self text start = Some ws /\
      Z.of_nat (List.length ws)
        <= ceil_div (Z.max 0 (len text - start)) (min_stride self) /\
      forall i, start <= i < len text -> covered ws i.
Proof.
  assert (Hd : 0 < min_stride self) by (unfold min_stride; lia).
  induction fuel as [|fuel IH]; intros start Hstart Hfuel; [lia|].
  rewrite chunk_windows_from_S.
  destruct (Z.ltb_spec start (len text)) as [Hlt|Hge].
  2:{ exists []. split; [reflexivity|]. split; [|intros i Hi; lia].
      simpl. unfold ceil_div. apply Z.div_pos; lia. }
  pose proof (next_end_past_midpoint start Hsize) as Hmid.
  set (e := next_end self text start) in *.
  assert (Hstep : start + min_stride self <= e - chunk_overlap self)
    by (unfold min_stride; lia).
  assert (Hone : 1 <= ceil_div (Z.max 0 (len text - start)) (min_stride self)).
  { unfold ceil_div. apply Z.div_le_lower_bound; lia. }
  destruct ((e - chunk_overlap self <=? 0)
            || (e - chunk_overlap self >=? len text)) eqn:Hbreak.
  - exists [(start, e)]. split; [reflexivity|]. split; [exact Hone|].
    intros i Hi. exists (start, e). split; [apply list_elem_of_here|]. simpl.
    apply orb_prop in Hbreak as [Hb|Hb];
      [apply Z.leb_le in Hb | apply Z.geb_le in Hb]; lia.
  - apply orb_false_elim in Hbreak as [Hb1 Hb2].
    apply Z.leb_gt in Hb1. rewrite Z.geb_leb in Hb2. apply Z.leb_gt in Hb2.
    destruct (IH (e - chunk_overlap self)) as (ws & Hws & Hlen & Hcov);
      [lia|lia|].
    exists ((start, e) :: ws). rewrite Hws. split; [reflexivity|]. split.
    + simpl List.length. rewrite Nat2Z.inj_succ.
      transitivity
        (ceil_div (Z.max 0 (len text - start) - min_stride self)
                  (min_stride self) + 1).
      * apply Z.add_le_mono_r. etransitivity; [exact Hlen|].
        unfold ceil_div. apply Z.div_le_mono; lia.
      * unfold ceil_div. rewrite <- Z.div_add by lia.
        apply Z.div_le_mono; lia.
    + intros i Hi. destruct (Z.lt_ge_cases i e) as [Hie|Hie].
      * exists (start, e). split; [apply list_elem_of_here|]. simpl. lia.
      * destruct (Hcov i) as (w & Hw & Hwi); [lia|].
        exists w. split; [now apply list_elem_of_further|exact Hwi].
Qed.

End Chunker.

(** The shipped configuration, 1000 characters with an overlap of 200,
    lies in the range where the cursor always advances. *)
Corollary default_chunker_returns (text : str) (fuel : nat) :
  len text < Z.of_nat fuel ->
  exists ws,
    DocumentProcessor.chunk_text fuel DocumentProcessor.default text
    = Some (DocumentProcessor.emit text ws) /\
    Z.of_nat (List.length ws) <= ceil_div (len text) 301 /\
    forall i, 0 <= i < len text -> covered ws i.
Proof.
  intros Hfuel. pose proof (len_nonneg text) as Hlen.
  destruct (windows_progress DocumentProcessor.default text ltac:(simpl; lia)
              ltac:(simpl; change (1000 / 2) with 500; lia) fuel 0)
    as (ws & Hws & Hbound & Hcov); [lia|lia|].
  exists ws. split; [|split; [|exact Hcov]].
  - rewrite chunk_text_windows. unfold DocumentProcessor.chunk_windows.
    now rewrite Hws.
  - rewrite Z.sub_0_r, Z.max_r in Hbound by lia. exact Hbound.
Qed.

(** C1, as amended. For every text and every configuration with
    [chunk_size > 0] and [0 <= chunk_overlap <= chunk_size // 2],
    [chunk_text] returns, and the windows its loop visited cover every
    position of the text: no character is skipped. *)
Theorem chunk_text_covers_text
    (self : DocumentProcessor.t) (text : str) (fuel : nat) :
  0 < DocumentProcessor.chunk_size self ->
  0 <= DocumentProcessor.chunk_overlap self
    <= DocumentProcessor.chunk_size self / 2 ->
  len text < Z.of_nat fuel ->
  exists ws,
    DocumentProcessor.chunk_windows fuel self text = Some ws /\
    DocumentProcessor.chunk_text fuel self text
      = Some (DocumentProcessor.emit text ws) /\
    forall i, 0 <= i < len text -> covered ws i.
Proof.
  intros Hsize Hoverlap Hfuel. pose proof (len_nonneg text) as Hlen.
  destruct (windows_progress self text Hsize Hoverlap fuel 0)
    as (ws & Hws & _ & Hcov); [lia|lia|].
  exists ws. split; [exact Hws|]. split; [|exact Hcov].
  rewrite chunk_text_windows. unfold DocumentProcessor.chunk_windows.
  now rewrite Hws.
Qed.

Lemma chunk_text_covers_text_witness :
  let self := DocumentProcessor.__init__ 10 2 in
  let text := of_string "The cat sat. The dog ran off now" in
  0 < DocumentProcessor.chunk_size self /\
  0 <= DocumentProcessor.chunk_overlap self
    <= DocumentProcessor.chunk_size self / 2 /\
  len text < 40 /\
  exists ws,
    DocumentProcessor.chunk_windows 40 self text = Some ws /\
    DocumentProcessor.chunk_text 40 self text
      = Some (DocumentProcessor.emit text ws) /\
    forall i, 0 <= i < len text -> covered ws i.
Proof.
  assert (H1 : 0 < 10) by lia.
  assert (H2 : 0 <= 2 <= 10 / 2) by (vm_compute; split; discriminate).
  assert (H3 : len (of_string "The cat sat. The dog ran off now") < 40)
    by (vm_compute; reflexivity).
  refine (conj H1 (conj H2 (conj H3 _))).
  exact (chunk_text_covers_text (DocumentProcessor.__init__ 10 2)
           (of_string "The cat sat. The dog ran off now") 40 H1 H2 H3).
Defined.

(** C1 fails as stated: chunk size 10 with overlap 9 is a valid
    configuration, the first cut lands after the full stop at position 6,
    the cursor falls back to [7 - 9 <= 0], and the loop stops with
    positions 7 to 23 in no window. *)
Lemma chunk_text_skips_text :
  let self := DocumentProcessor.__init__ 10 9 in
  let text := of_string "aaaaaa.bbbbbbbbbbbbbbbbb" in
  valid_config self /\
  DocumentProcessor.chunk_windows 40 self text = Some [(0, 7)] /\
  DocumentProcessor.chunk_text 40 self text = Some [of_string "aaaaaa."] /\
  0 <= 7 < len text /\
  ~ covered [(0, 7)] 7.
Proof.
  split; [unfold valid_config; simpl; lia|].
  split; [vm_compute; reflexivity|].
  split; [vm_compute; reflexivity|].
  split; [vm_compute; split; [discriminate|reflexivity]|].
  intros (w & Hw & Hi). apply list_elem_of_singleton in Hw. subst w.
  simpl in Hi. lia.
Qed.

(** C4, as amended. For every text and every configuration with
    [chunk_size > 0] and [0 <= chunk_overlap <= chunk_size // 2],
    [chunk_text] returns, after at most
    [ceil(len(text) / (chunk_size // 2 + 1 - chunk_overlap))] iterations of
    its loop. *)
Theorem chunk_text_terminates
    (self : DocumentProcessor.t) (text : str) (fuel : nat) :
  0 < DocumentProcessor.chunk_size self ->
  0 <= DocumentProcessor.chunk_overlap self
    <= DocumentProcessor.chunk_size self / 2 ->
  len text < Z.of_nat fuel ->
  exists ws,
    DocumentProcessor.chunk_windows fuel self text = Some ws /\
    DocumentProcessor.chunk_text fuel self text
      = Some (DocumentProcessor.emit text ws) /\
    Z.of_nat (List.length ws) <= ceil_div (len text) (min_stride self).
Proof.
  intros Hsize Hoverlap Hfuel. pose proof (len_nonneg text) as Hlen.
  destruct (windows_progress self text Hsize Hoverlap fuel 0)
    as (ws & Hws & Hbound & _); [lia|lia|].
  exists ws. split; [exact Hws|]. split.
  - rewrite chunk_text_windows. unfold DocumentProcessor.chunk_windows.
    now rewrite Hws.
  - rewrite Z.sub_0_r, Z.max_r in Hbound by lia. exact Hbound.
Qed.

Lemma chunk_text_terminates_witness :
  let self := DocumentProcessor.__init__ 10 2 in
  let text := of_string "The cat sat. The dog ran off now" in
  0 < DocumentProcessor.chunk_size self /\
  0 <= DocumentProcessor.chunk_overlap self
    <= DocumentProcessor.chunk_size self / 2 /\
  len text < 40 /\
  exists ws,
    DocumentProcessor.chunk_windows 40 self text = Some ws /\
    DocumentProcessor.chunk_text 40 self text
      = Some (DocumentProcessor.emit text ws) /\
    Z.of_nat (List.length ws) <= ceil_div (len text) (min_stride self).
Proof.
  assert (H1 : 0 < 10) by lia.
  assert (H2 : 0 <= 2 <= 10 / 2) by (vm_compute; split; discriminate).
  assert (H3 : len (of_string "The cat sat. The dog ran off now") < 40)
    by (vm_compute; reflexivity).
  refine (conj H1 (conj H2 (conj H3 _))).
  exact (chunk_text_terminates (DocumentProcessor.__init__ 10 2)
           (of_string "The cat sat. The dog ran off now") 40 H1 H2 H3).
Defined.

(** With chunk size 10 and overlap 9 the cut after the full stop at
    position 9 sends the cursor from 1 back to 1. *)
Lemma chunk_windows_stuck (fuel : nat) :
  DocumentProcessor.chunk_windows_from fuel (DocumentProcessor.__init__ 10 9)
    (of_string "aaaaaaaaa.bbbbbbbbbbbbbbbbb") 1 = None.
Proof.
  induction fuel as [|fuel IH]; [reflexivity|].
  rewrite chunk_windows_from_S.
  replace (DocumentProcessor.next_end _ _ 1) with 10 by (vm_compute; reflexivity).
  replace (1 <? len _) with true by (vm_compute; reflexivity).
  change (DocumentProcessor.chunk_overlap (DocumentProcessor.__init__ 10 9))
    with 9.
  replace ((10 - 9 <=? 0) || (10 - 9 >=? len _)) with false
    by (vm_compute; reflexivity).
  change (10 - 9) with 1. now rewrite IH.
Qed.

(** C4 fails as stated, in two ways. With chunk size 10 and no overlap the
    cuts at the spaces make three iterations where the stated bound is
    [ceil(20 / 10) = 2]. With chunk size 10 and overlap 9, a valid
    configuration, the loop never ends. *)
Lemma chunk_text_iteration_bound_fails :
  (let self := DocumentProcessor.__init__ 10 0 in
   let text := of_string "aaaaaaa aaaaaaa aaaa" in
   valid_config self /\
   DocumentProcessor.chunk_windows 40 self text
     = Some [(0, 7); (7, 15); (15, 25)] /\
   ceil_div (len text)
     (DocumentProcessor.chunk_size self - DocumentProcessor.chunk_overlap self)
     = 2)
  /\
  (let self := DocumentProcessor.__init__ 10 9 in
   let text := of_string "aaaaaaaaa.bbbbbbbbbbbbbbbbb" in
   valid_config self /\
   forall fuel, DocumentProcessor.chunk_text fuel self text = None).
Proof.
  split.
  - split; [unfold valid_config; simpl; lia|].
    split; vm_compute; reflexivity.
  - split; [unfold valid_config; simpl; lia|].
    intros fuel. rewrite chunk_text_windows.
    unfold DocumentProcessor.chunk_windows.
    destruct fuel as [|fuel]; [reflexivity|].
    rewrite chunk_windows_from_S.
    replace (DocumentProcessor.next_end _ _ 0) with 10
      by (vm_compute; reflexivity).
    replace (0 <? len _) with true by (vm_compute; reflexivity).
    change (DocumentProcessor.chunk_overlap (DocumentProcessor.__init__ 10 9))
      with 9.
    replace ((10 - 9 <=? 0) || (10 - 9 >=? len _)) with false
      by (vm_compute; reflexivity).
    change (10 - 9) with 1. now rewrite chunk_windows_stuck.
Qed.

(** C5, as amended. For every text shorter than [chunk_size] that holds a
    character other than white space, and every overlap with
    [0 <= chunk_overlap] and [len(text) <= chunk_size - chunk_overlap],
    [chunk_text] returns exactly one chunk, the whole text trimmed. *)
Theorem chunk_text_short_text
    (self : DocumentProcessor.t) (text : str) (fuel : nat) :
  0 < DocumentProcessor.chunk_size self ->
  len text < DocumentProcessor.chunk_size self ->
  0 <= DocumentProcessor.chunk_overlap self ->
  len text
    <= DocumentProcessor.chunk_size self - DocumentProcessor.chunk_overlap self ->
  strip text <> [] ->
  (1 <= fuel)%nat ->
  DocumentProcessor.chunk_text fuel self text = Some [strip text].
Proof.
  intros Hsize Hshort Hov Hfit Hink Hfuel.
  destruct fuel as [|fuel]; [lia|].
  assert (Hpos : 0 < len text).
  { pose proof (len_nonneg text).
    destruct (Z.eq_dec (len text) 0) as [Hz|]; [|lia].
    apply len_nil_iff in Hz. subst text. now contradiction Hink. }
  unfold DocumentProcessor.chunk_text. simpl.
  destruct (Z.ltb_spec 0 (len text)); [|lia].
  rewrite next_end_at_tail by lia. rewrite Z.add_0_l.
  rewrite slice_all by lia. rewrite (truthy_true _ Hink). simpl.
  destruct (Z.leb_spec (DocumentProcessor.chunk_size self
                        - DocumentProcessor.chunk_overlap self) 0);
    [reflexivity|].
  simpl. destruct (Z.geb_spec (DocumentProcessor.chunk_size self
                               - DocumentProcessor.chunk_overlap self)
                              (len text)); [reflexivity|lia].
Qed.

Lemma chunk_text_short_text_witness :
  let self := DocumentProcessor.__init__ 10 2 in
  let text := of_string " hello " in
  0 < DocumentProcessor.chunk_size self /\
  len text < DocumentProcessor.chunk_size self /\
  0 <= DocumentProcessor.chunk_overlap self /\
  len text
    <= DocumentProcessor.chunk_size self - DocumentProcessor.chunk_overlap self /\
  strip text <> [] /\
  (1 <= 3)%nat /\
  DocumentProcessor.chunk_text 3 self text = Some [of_string "hello"].
Proof.
  assert (H1 : 0 < 10) by lia.
  assert (H2 : len (of_string " hello ") < 10) by (vm_compute; reflexivity).
  assert (H3 : 0 <= 2) by lia.
  assert (H4 : len (of_string " hello ") <= 10 - 2)
    by (vm_compute; discriminate).
  assert (H5 : strip (of_string " hello ") <> []) by (vm_compute; discriminate).
  assert (H6 : (1 <= 3)%nat) by lia.
  refine (conj H1 (conj H2 (conj H3 (conj H4 (conj H5 (conj H6 _)))))).
  exact (chunk_text_short_text (DocumentProcessor.__init__ 10 2)
           (of_string " hello ") 3 H1 H2 H3 H4 H5 H6).
Defined.

(** C5 fails as stated, in two ways. A text of nine characters with chunk
    size 10 and overlap 5 yields two chunks, the second one the tail the
    first already holds. A text of one blank yields no chunk at all. *)
Lemma chunk_text_short_text_fails :
  (let self := DocumentProcessor.__init__ 10 5 in
   let text := of_string "abcdefghi" in
   valid_config self /\ text <> [] /\
   len text < DocumentProcessor.chunk_size self /\
   DocumentProcessor.chunk_text 40 self text
     = Some [of_string "abcdefghi"; of_string "fghi"])
  /\
  (let self := DocumentProcessor.__init__ 10 0 in
   let text := of_string " " in
   valid_config self /\ text <> [] /\
   len text < DocumentProcessor.chunk_size self /\
   DocumentProcessor.chunk_text 40 self text = Some []).
Proof.
  split; (split; [unfold valid_config; simpl; lia|]);
    (split; [discriminate|]); split; vm_compute; reflexivity.
Qed.

(** C6, as amended. In every window whose hard limit lies before the end
    of the text: when a full stop occurs strictly between the midpoint and
    the limit, the chunk is cut just after the last such full stop;
    otherwise, when a space occurs there, it is cut at the last such space;
    otherwise it is cut at the hard limit. Paragraph breaks are not looked
    for. *)
Theorem next_end_boundary_preference
    (self : DocumentProcessor.t) (text : str) (start : Z) :
  0 <= start ->
  0 < DocumentProcessor.chunk_size self ->
  start + DocumentProcessor.chunk_size self < len text ->
  cut_rule self text start.
Proof.
  intros Hstart Hsize Hroom. unfold cut_rule.
  set (mid := start + DocumentProcessor.chunk_size self / 2).
  set (limit := start + DocumentProcessor.chunk_size self).
  set (e := DocumentProcessor.next_end self text start).
  assert (Hhalf : 0 <= DocumentProcessor.chunk_size self / 2)
    by (apply Z.div_pos; lia).
  subst e. unfold DocumentProcessor.next_end.
  fold mid limit. destruct (Z.ltb_spec limit (len text)) as [_|]; [|lia].
  pose proof (rfind_spec text (ord ".") start limit Hstart) as Hdot.
  pose proof (rfind_spec text (ord " ") start limit Hstart) as Hsp.
  cbv zeta in Hdot, Hsp.
  revert Hdot Hsp.
  generalize (rfind text (ord ".") start limit).
  generalize (rfind text (ord " ") start limit).
  intros sp se Hdot Hsp.
  specialize (Hdot ltac:(lia)). specialize (Hsp ltac:(lia)).
  assert (Hdot_none :
            (forall p, mid < p < limit -> at_index text p <> Some (ord ".")) ->
            negb (se =? -1) && (se >? mid) = false).
  { intros Hnone. destruct Hdot as [[-> _] | (Hr & Hat & _)]; [reflexivity|].
    destruct (Z.gtb_spec se mid) as [Hgt|]; [|apply andb_false_r].
    now contradiction (Hnone se ltac:(lia)). }
  assert (Hsp_none :
            (forall p, mid < p < limit -> at_index text p <> Some (ord " ")) ->
            negb (sp =? -1) && (sp >? mid) = false).
  { intros Hnone. destruct Hsp as [[-> _] | (Hr & Hat & _)]; [reflexivity|].
    destruct (Z.gtb_spec sp mid) as [Hgt|]; [|apply andb_false_r].
    now contradiction (Hnone sp ltac:(lia)). }
  split; [|split].
  - intros (p & Hp & Hat).
    destruct Hdot as [[_ Hnone] | (Hr & Hse & Hlast)].
    { now contradiction (Hnone p ltac:(lia)). }
    assert (p <= se).
    { destruct (Z.le_gt_cases p se); [assumption|].
      now contradiction (Hlast p ltac:(lia)). }
    destruct (Z.eqb_spec se (-1)); [lia|].
    destruct (Z.gtb_spec se mid); [|lia]. simpl.
    replace (se + 1 - 1) with se by lia.
    split; [lia|]. split; [exact Hse|exact Hlast].
  - intros Hnodot (p & Hp & Hat). rewrite (Hdot_none Hnodot).
    destruct Hsp as [[_ Hnone] | (Hr & Hse & Hlast)].
    { now contradiction (Hnone p ltac:(lia)). }
    assert (p <= sp).
    { destruct (Z.le_gt_cases p sp); [assumption|].
      now contradiction (Hlast p ltac:(lia)). }
    destruct (Z.eqb_spec sp (-1)); [lia|].
    destruct (Z.gtb_spec sp mid); [|lia]. simpl.
    split; [lia|]. split; [exact Hse|exact Hlast].
  - intros Hnodot Hnosp.
    now rewrite (Hdot_none Hnodot), (Hsp_none Hnosp).
Qed.

Lemma next_end_boundary_preference_witness :
  let self := DocumentProcessor.__init__ 10 2 in
  let text := of_string "The cat sat. The dog ran off now" in
  0 <= 0 /\
  0 < DocumentProcessor.chunk_size self /\
  0 + DocumentProcessor.chunk_size self < len text /\
  cut_rule self text 0.
Proof.
  assert (H1 : 0 <= 0) by lia.
  assert (H2 : 0 < 10) by lia.
  assert (H3 : 0 + 10 < len (of_string "The cat sat. The dog ran off now"))
    by (vm_compute; reflexivity).
  refine (conj H1 (conj H2 (conj H3 _))).
  exact (next_end_boundary_preference (DocumentProcessor.__init__ 10 2)
           (of_string "The cat sat. The dog ran off now") 0 H1 H2 H3).
Defined.

(** C6 fails as stated: with chunk size 10, a paragraph break at positions
    7 and 8 lies past the midpoint 5 and before the hard limit 10, yet the
    first chunk is cut at 10 and runs across the break. *)
Lemma chunk_text_ignores_paragraph_break :
  let self := DocumentProcessor.__init__ 10 0 in
  let text := of_string "aaaaaaa" ++ nl ++ nl ++ of_string "bbbbbbbbbbb" in
  at_index text 7 = Some 10%N /\ at_index text 8 = Some 10%N /\
  0 + DocumentProcessor.chunk_size self / 2 < 7 /\
  8 < 0 + DocumentProcessor.chunk_size self < len text /\
  DocumentProcessor.next_end self text 0 = 10 /\
  DocumentProcessor.chunk_text 40 self text
    = Some [of_string "aaaaaaa" ++ nl ++ nl ++ of_string "b";
            of_string "bbbbbbbbbb"].
Proof. repeat split; vm_compute; reflexivity. Qed.

(** C8, as amended. No configuration is rejected. The constructor stores
    any chunk size and overlap unchanged, and for every configuration with
    [0 <= chunk_size <= chunk_overlap] (a zero chunk size, or an overlap of
    at least the chunk size) [chunk_text] returns normally after a single
    iteration: the trimmed first window when that is not blank, nothing
    otherwise. *)
Theorem chunk_text_accepts_invalid_config
    (chunk_size chunk_overlap : Z) (text : str) (fuel : nat) :
  0 <= chunk_size <= chunk_overlap ->
  (1 <= fuel)%nat ->
  let self := DocumentProcessor.__init__ chunk_size chunk_overlap in
  let ws := if 0 <? len text
            then [(0, DocumentProcessor.next_end self text 0)] else [] in
  DocumentProcessor.chunk_size self = chunk_size /\
  DocumentProcessor.chunk_overlap self = chunk_overlap /\
  DocumentProcessor.chunk_windows fuel self text = Some ws /\
  DocumentProcessor.chunk_text fuel self text
    = Some (DocumentProcessor.emit text ws) /\
  (chunk_size = 0 -> DocumentProcessor.chunk_text fuel self text = Some []).
Proof.
  intros Hcfg Hfuel self ws.
  split; [reflexivity|]. split; [reflexivity|].
  assert (Hws : DocumentProcessor.chunk_windows fuel self text = Some ws).
  { destruct fuel as [|fuel]; [lia|].
    unfold DocumentProcessor.chunk_windows. rewrite chunk_windows_from_S.
    subst ws. destruct (0 <? len text); [|reflexivity].
    pose proof (next_end_le_limit self text 0 ltac:(lia)) as Hle.
    change (DocumentProcessor.chunk_size self) with chunk_size in Hle.
    change (DocumentProcessor.chunk_overlap self) with chunk_overlap.
    specialize (Hle ltac:(lia)).
    destruct (Z.leb_spec (DocumentProcessor.next_end self text 0
                          - chunk_overlap) 0); [reflexivity|lia]. }
  split; [exact Hws|].
  assert (Htext : DocumentProcessor.chunk_text fuel self text
                  = Some (DocumentProcessor.emit text ws))
    by (rewrite chunk_text_windows; now rewrite Hws).
  split; [exact Htext|].
  intros Hzero. rewrite Htext. f_equal. subst ws.
  destruct (0 <? len text); [|reflexivity].
  pose proof (next_end_le_limit self text 0 ltac:(lia)) as Hle.
  pose proof (next_end_past_midpoint self text 0) as Hge.
  change (DocumentProcessor.chunk_size self) with chunk_size in Hle, Hge.
  specialize (Hle ltac:(lia)).
  assert (He : DocumentProcessor.next_end self text 0 = 0).
  { unfold DocumentProcessor.next_end.
    change (DocumentProcessor.chunk_size self) with chunk_size.
    subst chunk_size. change (0 + 0) with 0. change (0 / 2) with 0.
    destruct (0 <? len text); [|reflexivity].
    pose proof (len_nonneg text).
    destruct (rfind_spec text (ord ".") 0 0) as [[-> _] | [? _]]; try lia.
    destruct (rfind_spec text (ord " ") 0 0) as [[-> _] | [? _]]; try lia.
    reflexivity. }
  rewrite He. unfold DocumentProcessor.emit. simpl. now rewrite slice_empty.
Qed.

Lemma chunk_text_accepts_invalid_config_witness :
  let self := DocumentProcessor.__init__ 5 5 in
  let text := of_string "hello world" in
  0 <= 5 <= 5 /\ (1 <= 40)%nat /\
  DocumentProcessor.chunk_size self = 5 /\
  DocumentProcessor.chunk_overlap self = 5 /\
  DocumentProcessor.chunk_windows 40 self text
    = Some (if 0 <? len text
            then [(0, DocumentProcessor.next_end self text 0)] else []) /\
  DocumentProcessor.chunk_text 40 self text
    = Some (DocumentProcessor.emit text
              (if 0 <? len text
               then [(0, DocumentProcessor.next_end self text 0)] else [])) /\
  (5 = 0 -> DocumentProcessor.chunk_text 40 self text = Some []).
Proof.
  assert (H1 : 0 <= 5 <= 5) by lia.
  assert (H2 : (1 <= 40)%nat) by lia.
  refine (conj H1 (conj H2 _)).
  exact (chunk_text_accepts_invalid_config 5 5 (of_string "hello world") 40
           H1 H2).
Defined.

(** C8 fails as stated: an overlap equal to the chunk size, a chunk size
    of zero and a negative chunk size are all stored as given, and
    [chunk_text] returns a list for each instead of raising. *)
Lemma chunk_text_invalid_config_returns :
  DocumentProcessor.chunk_overlap (DocumentProcessor.__init__ 5 5) = 5 /\
  ~ valid_config (DocumentProcessor.__init__ 5 5) /\
  DocumentProcessor.chunk_text 40 (DocumentProcessor.__init__ 5 5)
    (of_string "hello world") = Some [of_string "hello"] /\
  DocumentProcessor.chunk_size (DocumentProcessor.__init__ 0 200) = 0 /\
  ~ valid_config (DocumentProcessor.__init__ 0 200) /\
  DocumentProcessor.chunk_text 40 (DocumentProcessor.__init__ 0 200)
    (of_string "hello world") = Some [] /\
  DocumentProcessor.chunk_size (DocumentProcessor.__init__ (-5) 0) = -5 /\
  ~ valid_config (DocumentProcessor.__init__ (-5) 0) /\
  DocumentProcessor.chunk_text 40 (DocumentProcessor.__init__ (-5) 0)
    (of_string "hello world") = Some [of_string "hello"].
Proof.
  repeat split; try (vm_compute; reflexivity);
    unfold valid_config; simpl; lia.
Qed.

(** ** The context retriever *)

Section Retriever.
Import Effects.
Context {num : Type} `{PyNum num} (svc : Services num).

(** A failing embedding call is re-raised by [_generate_embedding] after
    that one call. *)
Lemma generate_embedding_fails (vs : VectorStore.t) (query : str) (e : exn) :
  embedding_fails svc vs query e ->
  VectorStore._generate_embedding svc vs query
  = ([EvEmbeddings (VectorStore.embedding_model vs) query], Raise e).
Proof.
  unfold VectorStore._generate_embedding, call, bind, catch, lift.
  intros [-> | [-> ->]]; reflexivity.
Qed.

Lemma search_embedding_fails (vs : VectorStore.t) (query : str)
    (n_results : Z) (where_ : option Dict.Metadata) (e : exn) :
  embedding_fails svc vs query e ->
  VectorStore.search svc vs query n_results where_
  = ([EvEmbeddings (VectorStore.embedding_model vs) query], Raise e).
Proof.
  intros Hfail. unfold VectorStore.search.
  rewrite (generate_embedding_fails vs query e Hfail). reflexivity.
Qed.

(** When every collaborator answers, [search] hands the index's answer
    through, provided it carries a documents key. *)
Lemma search_returns (vs : VectorStore.t) (query : str) (n_results : Z)
    (results : QueryResult num) :
  index_returns svc vs query n_results results ->
  documents results <> Missing ->
  exists tr, VectorStore.search svc vs query n_results None = (tr, Ok results).
Proof.
  intros (embedding & count & Hemb & Hcount & Hquery) Hdocs.
  unfold VectorStore.search, VectorStore._generate_embedding,
    call, bind, catch, lift, ret.
  rewrite Hemb, Hcount. simpl. rewrite Hquery.
  unfold VectorStore.actual_results.
  destruct (documents results) as [| |[|row rows]]; [done|..];
    simpl; eexists; reflexivity.
Qed.









End Retriever.

(** C3, as amended. For every query, if the embedding-gateway call fails
    (the service raises, or its response carries no embedding),
    [_generate_embedding] and [search] re-raise that error after the one
    call, without a retry, and [retrieve_context] catches it and returns
    the empty list as a normal result. *)
Theorem embedding_failure_absorbed {num : Type} `{PyNum num}
    (svc : Services num) (self : RAGService.t) (query : str)
    (n_results : Z) (min_similarity : num) (e : exn) :
  embedding_fails svc (RAGService.vector_store self) query e ->
  let vs := RAGService.vector_store self in
  let tr := [EvEmbeddings (VectorStore.embedding_model vs) query] in
  VectorStore._generate_embedding svc vs query = (tr, Raise e) /\
  VectorStore.search svc vs query n_results None = (tr, Raise e) /\
  RAGService.retrieve_context svc self query n_results min_similarity
  = (tr, Ok []).
Proof.
  intros Hfail vs tr.
  split; [now apply generate_embedding_fails|].
  split; [now apply search_embedding_fails|].
  unfold RAGService.retrieve_context.
  rewrite (search_embedding_fails svc _ query n_results None e Hfail).
  reflexivity.
Qed.

Lemma embedding_failure_absorbed_witness :
  let svc := Samples.embedding_down (Samples.three_results 0.1 0.6 1.3)%float in
  let e := ServiceError (of_string "connection refused") in
  let tr := [EvEmbeddings "mxbai-embed-large" (of_string "copay?")] in
  embedding_fails svc Samples.vs (of_string "copay?") e /\
  VectorStore._generate_embedding svc Samples.vs (of_string "copay?")
  = (tr, Raise e) /\
  VectorStore.search svc Samples.vs (of_string "copay?") 6 None
  = (tr, Raise e) /\
  RAGService.retrieve_context svc Samples.rag (of_string "copay?") 6 0.5%float
  = (tr, Ok []).
Proof.
  assert (H1 : embedding_fails
                 (Samples.embedding_down (Samples.three_results 0.1 0.6 1.3)%float)
                 Samples.vs (of_string "copay?")
                 (ServiceError (of_string "connection refused")))
    by (left; reflexivity).
  refine (conj H1 _).
  exact (embedding_failure_absorbed
           (Samples.embedding_down (Samples.three_results 0.1 0.6 1.3)%float)
           Samples.rag (of_string "copay?") 6 0.5%float
           (ServiceError (of_string "connection refused")) H1).
Defined.

(** C3 fails as stated: with the embedding service unreachable,
    [retrieve_context] returns the empty list; no exception reaches its
    caller. *)
Lemma embedding_error_not_propagated :
  let svc := Samples.embedding_down (Samples.three_results 0.1 0.6 1.3)%float in
  ollama_embeddings svc "mxbai-embed-large" (of_string "copay?")
  = Raise (ServiceError (of_string "connection refused")) /\
  RAGService.retrieve_context svc Samples.rag (of_string "copay?") 6 0.5%float
  = ([EvEmbeddings "mxbai-embed-large" (of_string "copay?")], Ok []) /\
  forall e,
    snd (RAGService.retrieve_context svc Samples.rag (of_string "copay?") 6
           0.5%float) <> Raise e.
Proof. repeat split. intros e. discriminate. Qed.



(** In binary64 the third similarity of the scenario is the neighbour of
    -0.3: Python prints it as -0.30000000000000004. *)
Remark binary64_similarities :
  map (PrimFloat.sub 1) [0.1; 0.6; 1.3]%float
  = [0.9; 0.4; -0.30000000000000004]%float
  /\ (-0.30000000000000004 = next_down (-0.3))%float.
Proof. split; vm_compute; reflexivity. Qed.

Section DefaultDistance.
Context {num : Type} `{PyNum num}.

End DefaultDistance.



(** ** The prompt composer *)

Lemma chat_messages_no_context {num : Type} (query : str)
    (conversation_history : option (list Message)) :
  RAGService.chat_messages (num := num) query conversation_history []
  = Ok (no_context_messages query conversation_history).
Proof.
  unfold RAGService.chat_messages, no_context_messages, recent_turns. simpl.
  destruct conversation_history as [[|m history]|]; reflexivity.
Qed.

(** C2, as amended. With an empty sequence of context records
    [format_prompt_with_context] returns the query unchanged, whatever the
    system prompt. When no context record qualifies (retrieval is off, or
    it returns nothing), [generate_response] calls the model with a single
    user-role message holding the query, and [chat] calls the model with a
    fixed system-role message that has no context section, then the last
    ten turns of the history, then the user-role message holding the
    query. The model is called in every such case. *)
Theorem empty_context_composition {num : Type} `{PyNum num}
    (svc : Services num) (self : RAGService.t) (query : str)
    (system_prompt : option str) (conversation_history : option (list Message))
    (use_context : bool) (n_context_docs : Z) (stream : bool) :
  use_context = false
  \/ snd (RAGService.retrieve_context svc self query n_context_docs zero)
     = Ok [] ->
  let retrieval :=
    if use_context
    then fst (RAGService.retrieve_context svc self query n_context_docs zero)
    else [] in
  RAGService.format_prompt_with_context (num := num) query [] system_prompt
  = Ok query /\
  RAGService.chat_messages (num := num) query conversation_history []
  = Ok (no_context_messages query conversation_history) /\
  fst (RAGService.generate_response svc self query use_context n_context_docs
         system_prompt stream)
  = retrieval
    ++ [EvChat (RAGService.llm_model self) [RAGService.user_message query]
          stream] /\
  fst (RAGService.chat svc self query conversation_history use_context
         n_context_docs stream)
  = retrieval
    ++ [EvChat (RAGService.llm_model self)
          (no_context_messages query conversation_history) stream].
Proof.
  intros Hnone retrieval.
  split; [reflexivity|]. split; [apply chat_messages_no_context|].
  assert (Hctx :
    (if use_context
     then RAGService.retrieve_context svc self query n_context_docs zero
     else ret []) = (retrieval, Ok [])).
  { subst retrieval. destruct use_context; [|reflexivity].
    destruct Hnone as [Hoff|Hempty]; [discriminate|].
    destruct (RAGService.retrieve_context svc self query n_context_docs zero)
      as [tr r]. simpl in *. now subst r. }
  split.
  - unfold RAGService.generate_response. rewrite Hctx.
    unfold bind, catch, call, lift, ret. simpl.
    destruct (ollama_chat svc (RAGService.llm_model self)
                [RAGService.user_message query] stream) as [response|e];
      [|simpl; now rewrite ?app_nil_r].
    destruct (RAGService.read_response stream response); simpl;
      now rewrite ?app_nil_r.
  - unfold RAGService.chat. rewrite Hctx.
    unfold bind, catch, call, lift, ret.
    rewrite chat_messages_no_context.
    destruct (ollama_chat svc (RAGService.llm_model self)
                (no_context_messages query conversation_history) stream)
      as [response|e]; [|simpl; now rewrite ?app_nil_r].
    destruct (RAGService.read_response stream response); simpl;
      now rewrite ?app_nil_r.
Qed.

Lemma empty_context_composition_witness :
  let svc := Samples.embedding_down (Samples.three_results 0.1 0.6 1.3)%float in
  let query := of_string "What is a copay?" in
  (true = false
   \/ snd (RAGService.retrieve_context svc Samples.rag query 6 zero) = Ok [])
  /\
  fst (RAGService.chat svc Samples.rag query None true 6 false)
  = [EvEmbeddings "mxbai-embed-large" query]
    ++ [EvChat "llama3.2" (no_context_messages query None) false].
Proof.
  intros svc query.
  assert (H1 : true = false
               \/ snd (RAGService.retrieve_context svc Samples.rag query 6 zero)
                  = Ok []) by (right; reflexivity).
  refine (conj H1 _).
  exact (proj2 (proj2 (proj2
           (empty_context_composition svc Samples.rag query None None true 6
              false H1)))).
Defined.

(** C2 fails as stated for [chat]: without any context record it sends the
    model two messages, the first of them with the system role. *)
Lemma chat_without_context_sends_system_message :
  let svc := Samples.embedding_down (Samples.three_results 0.1 0.6 1.3)%float in
  let query := of_string "What is a copay?" in
  let system :=
    RAGService.system_message RAGService.no_context_system_message in
  RAGService.chat_messages (num := float) query None []
  = Ok [system; RAGService.user_message query] /\
  role system = of_string "system" /\
  fst (RAGService.chat svc Samples.rag query None true 6 false)
  = [EvEmbeddings "mxbai-embed-large" query;
     EvChat "llama3.2" [system; RAGService.user_message query] false].
Proof. repeat split. Qed.

(** ** The chunk annotator *)

Section AnnotatorFacts.
Import Dict DocumentProcessor.

Lemma setitem_last (h : heap) (d : Metadata) (k : string) (v : value) :
  setitem (h ++ [d]) (List.length h) k v = h ++ [<[k := v]> d].
Proof.
  unfold setitem, deref. rewrite list_lookup_middle by reflexivity. simpl.
  rewrite <- (Nat.add_0_r (List.length h)) at 1.
  now rewrite insert_app_r.
Qed.

(** Each iteration allocates one new dictionary, a copy of the base with
    the two positional keys set, and leaves every older one as it was. *)
Lemma annotate_loop_spec (base : loc) (d : Metadata) (total : Z) :
  forall chunks (h : heap) i processed,
    h !! base = Some d ->
    annotate_loop h base total i chunks processed
    = (h ++ map (annotated d total) (seqZ i (len chunks)),
       processed
         ++ zip_with (fun chunk l => {| text := chunk; metadata := l |})
              chunks (seq (List.length h) (List.length chunks))).
Proof.
  induction chunks as [|chunk chunks IH]; intros h i processed Hbase.
  - simpl. now rewrite !app_nil_r.
  - simpl annotate_loop. unfold copy, alloc, deref. rewrite Hbase. simpl.
    rewrite !setitem_last.
    rewrite (IH _ (i + 1)) by now apply lookup_app_l_Some.
    rewrite length_app. simpl.
    rewrite Nat.add_1_r, <- !app_assoc. simpl.
    unfold len. simpl List.length. rewrite Nat2Z.inj_succ.
    rewrite (seqZ_cons i) by lia. simpl.
    rewrite Z.pred_succ. unfold annotated. reflexivity.
Qed.

(** A caller's non-empty dictionary is used as the base itself, so the
    update writes the two provenance keys into it. *)
Lemma annotate_updates_nonempty_metadata (h : heap) (file_path : str)
    (l : loc) (d : Metadata) (chunks : list str) :
  h !! l = Some d -> d <> ∅ ->
  (annotate h file_path (Some l) chunks).1 !! l
  = Some (with_provenance d file_path).
Proof.
  intros Hl Hne. unfold annotate, or_empty. rewrite Hl.
  destruct (decide (d = ∅)) as [->|_]; [done|].
  assert (Hupd : update h l
                   [("source"%string, VStr (basename file_path));
                    ("file_path"%string, VStr file_path)] !! l
                 = Some (with_provenance d file_path)).
  { unfold update, deref. rewrite Hl. simpl.
    apply list_lookup_insert_eq. now apply lookup_lt_Some in Hl. }
  rewrite (annotate_loop_spec l _ _ chunks _ 0 [] Hupd). simpl.
  now apply lookup_app_l_Some.
Qed.

(** Without metadata, or with an empty dictionary, the base is a new
    object and every dictionary the caller holds stays as it was. *)
Lemma annotate_keeps_other_metadata (h : heap) (file_path : str)
    (metadata : option loc) (chunks : list str) (l : loc) (d : Metadata) :
  (or_empty h metadata).2 <> l ->
  h !! l = Some d ->
  (annotate h file_path metadata chunks).1 !! l = Some d.
Proof.
  intros Hbase Hl. unfold annotate.
  destruct (or_empty h metadata) as [h0 base] eqn:Hor. simpl in Hbase.
  assert (Hh0 : h0 !! l = Some d /\ (base < List.length h0)%nat).
  { unfold or_empty, alloc in Hor.
    destruct metadata as [l0|]; [destruct (h !! l0) as [d0|] eqn:Hl0;
      [destruct (decide (d0 = ∅))|]|];
      injection Hor as <- <-;
      (split; [try (now apply lookup_app_l_Some); exact Hl|]);
      try (rewrite length_app; simpl; lia).
    now apply lookup_lt_Some in Hl0. }
  destruct Hh0 as [Hh0 Hlt].
  destruct (lookup_lt_is_Some_2 h0 base Hlt) as [d0 Hd0].
  set (h1 := update h0 base _).
  assert (Hb1 : h1 !! base = Some (with_provenance d0 file_path)).
  { subst h1. unfold update, deref. rewrite Hd0. simpl.
    now apply list_lookup_insert_eq. }
  rewrite (annotate_loop_spec base _ _ chunks h1 0 [] Hb1). simpl.
  apply lookup_app_l_Some. subst h1. unfold update.
  now rewrite list_lookup_insert_ne.
Qed.


(** The records carry the chunks, in order. *)
Lemma annotate_texts (h : heap) (file_path : str) (metadata : option loc)
    (chunks : list str) :
  map DocumentProcessor.text (annotate h file_path metadata chunks).2 = chunks.
Proof.
  unfold annotate.
  destruct (or_empty h metadata) as [h0 base] eqn:Hor.
  assert (Hlt : (base < List.length h0)%nat).
  { unfold or_empty, alloc in Hor.
    destruct metadata as [l0|]; [destruct (h !! l0) as [d0|] eqn:Hl0;
      [destruct (decide (d0 = ∅))|]|];
      injection Hor as <- <-; try (rewrite length_app; simpl; lia).
    now apply lookup_lt_Some in Hl0. }
  destruct (lookup_lt_is_Some_2 h0 base Hlt) as [d0 Hd0].
  set (h1 := update h0 base _).
  assert (Hb1 : h1 !! base = Some (with_provenance d0 file_path)).
  { subst h1. unfold update, deref. rewrite Hd0. simpl.
    now apply list_lookup_insert_eq. }
  rewrite (annotate_loop_spec base _ _ chunks h1 0 [] Hb1). simpl.
  generalize (List.length h1).
  induction chunks as [|c chunks IH]; intros n; [reflexivity|].
  simpl. f_equal. apply IH.
Qed.

End AnnotatorFacts.

(** C9, where the code departs from it. A caller who passes a non-empty
    metadata dictionary finds it changed after [process_document]: the
    base is that very object, and the update writes the source and the
    file path into it. *)
Theorem process_document_mutates_caller_metadata :
  let caller : Dict.Metadata :=
    {[ "filename"%string := Dict.VStr (of_string "a.txt") ]} in
  let h := [caller] in
  let self := DocumentProcessor.__init__ 5 0 in
  let file_path := of_string "/docs/a.txt" in
  exists h' processed,
    DocumentProcessor.process_document 40 self h file_path
      (Ok (of_string "alphabeta")) (Some 0%nat)
    = Some (h', Ok processed) /\
    map DocumentProcessor.text processed
    = [of_string "alpha"; of_string "beta"] /\
    h !! 0%nat = Some caller /\
    h' !! 0%nat = Some (with_provenance caller file_path) /\
    h' !! 0%nat <> h !! 0%nat.
Proof.
  intros caller h self file_path.
  assert (Hchunks : DocumentProcessor.chunk_text 40 self (of_string "alphabeta")
                    = Some [of_string "alpha"; of_string "beta"])
    by (vm_compute; reflexivity).
  unfold DocumentProcessor.process_document. rewrite Hchunks.
  pose proof (annotate_texts h file_path (Some 0%nat)
                [of_string "alpha"; of_string "beta"]) as Htexts.
  assert (Hh' : (DocumentProcessor.annotate h file_path (Some 0%nat)
                   [of_string "alpha"; of_string "beta"]).1 !! 0%nat
                = Some (with_provenance caller file_path)).
  { apply annotate_updates_nonempty_metadata; [reflexivity|].
    intros Hempty. apply (f_equal (fun m => m !! "filename"%string)) in Hempty.
    subst caller. rewrite lookup_singleton_eq, lookup_empty in Hempty.
    discriminate. }
  destruct (DocumentProcessor.annotate h file_path (Some 0%nat)
              [of_string "alpha"; of_string "beta"]) as [h' processed].
  exists h', processed. simpl in Htexts, Hh'.
  split; [reflexivity|]. split; [exact Htexts|].
  split; [reflexivity|]. split; [exact Hh'|].
  rewrite Hh'. change (h !! 0%nat) with (Some caller). intros Heq.
  apply (f_equal (fun o => o ≫= (fun m : Dict.Metadata =>
                                   m !! "file_path"%string))) in Heq.
  change (with_provenance caller file_path !! "file_path"%string
          = caller !! "file_path"%string) in Heq.
  unfold with_provenance in Heq. subst caller.
  rewrite lookup_insert_eq, lookup_singleton_ne in Heq by discriminate.
  discriminate.
Qed.

(** * Further properties *)

(** ** Trimming and slicing *)

Lemma lstrip_split (s : str) :
  exists pre, s = pre ++ lstrip s /\ blank pre.
Proof.
  induction s as [|c s (pre & Hs & Hpre)].
  - exists []. split; [reflexivity|]. intros c Hc. inversion Hc.
  - simpl. destruct (is_space c) eqn:Hc.
    + exists (c :: pre). split; [simpl; now rewrite <- Hs|].
      intros x Hx. apply elem_of_cons in Hx as [->|Hx]; [exact Hc|].
      now apply Hpre.
    + exists []. split; [reflexivity|]. intros x Hx. inversion Hx.
Qed.

Lemma lstrip_head (s : str) (c : char) :
  head (lstrip s) = Some c -> is_space c = false.
Proof.
  induction s as [|x s IH]; simpl; [discriminate|].
  destruct (is_space x) eqn:Hx; [exact IH|].
  simpl. now intros [= <-].
Qed.

Lemma lstrip_blank (s : str) : blank s -> lstrip s = [].
Proof.
  induction s as [|x s IH]; intros Hs; [reflexivity|]. simpl.
  rewrite (Hs x) by apply list_elem_of_here.
  apply IH. intros c Hc. apply Hs. now apply list_elem_of_further.
Qed.

Lemma last_rev_head {A : Type} (l : list A) : last (rev l) = head l.
Proof. destruct l as [|x l]; [reflexivity|]. simpl. apply last_snoc. Qed.

Lemma strip_substring (s : str) : substring_of (strip s) s.
Proof.
  unfold strip, rstrip.
  destruct (lstrip_split s) as (pre & Hs & _).
  destruct (lstrip_split (rev (lstrip s))) as (post & Hr & _).
  exists pre, (rev post). rewrite Hs at 1. f_equal.
  rewrite <- (rev_involutive (lstrip s)) at 1. rewrite Hr at 1.
  now rewrite rev_app_distr.
Qed.

Lemma strip_trimmed (s : str) : strip s <> [] -> trimmed (strip s).
Proof.
  intros Hne. split; [exact Hne|]. unfold strip, rstrip in *.
  set (t := lstrip s) in *. set (u := lstrip (rev t)) in *.
  destruct (lstrip_split (rev t)) as (w & Hw & _). fold u in Hw.
  assert (Ht : t = rev u ++ rev w).
  { rewrite <- (rev_involutive t), Hw. apply rev_app_distr. }
  split.
  - intros c Hc. apply (lstrip_head s). fold t. rewrite Ht.
    destruct (rev u) as [|x r]; [done|]. exact Hc.
  - intros c Hc. apply (lstrip_head (rev t)). fold u.
    rewrite last_rev_head in Hc. exact Hc.
Qed.

Lemma strip_blank (s : str) : blank s -> strip s = [].
Proof.
  intros Hs. unfold strip. now rewrite (lstrip_blank s Hs).
Qed.

Lemma slice_substring {A : Type} (s : list A) (start stop : Z) :
  exists pre post, s = pre ++ slice s start stop ++ post.
Proof.
  unfold slice.
  set (a := Z.to_nat (slice_adjust (len s) start)).
  set (k := Z.to_nat (_ - _)).
  exists (take a s), (drop k (drop a s)).
  now rewrite (take_drop k (drop a s)), (take_drop a s).
Qed.

Lemma slice_length {A : Type} (s : list A) (start stop : Z) :
  0 <= start <= stop -> len (slice s start stop) <= stop - start.
Proof.
  intros Hrange. unfold slice, len, slice_adjust. rewrite length_take.
  destruct (Z.ltb_spec start 0); [lia|]. destruct (Z.ltb_spec stop 0); lia.
Qed.

Lemma substring_of_trans (a b c : str) :
  substring_of a b -> substring_of b c -> substring_of a c.
Proof.
  intros (p1 & q1 & ->) (p2 & q2 & ->).
  exists (p2 ++ p1), (q1 ++ q2). now rewrite <- !app_assoc.
Qed.

Lemma substring_of_length (a b : str) : substring_of a b -> len a <= len b.
Proof.
  intros (p & q & ->). unfold len. rewrite !length_app. lia.
Qed.

Lemma substring_of_blank (a b : str) : substring_of a b -> blank b -> blank a.
Proof.
  intros (p & q & ->) Hb c Hc. apply Hb.
  apply elem_of_app. right. apply elem_of_app. now left.
Qed.

(** ** The chunker, further *)

(** Every emitted chunk is the trimmed slice of one of the windows. *)
Lemma elem_of_emit (text : str) (ws : list (Z * Z)) (c : str) :
  c ∈ DocumentProcessor.emit text ws ->
  exists w, w ∈ ws /\ c = strip (slice text w.1 w.2) /\ c <> [].
Proof.
  unfold DocumentProcessor.emit. intros Hc.
  apply list_elem_of_In, filter_In in Hc as [Hc Htruthy].
  apply in_map_iff in Hc as (w & <- & Hw). exists w.
  split; [now apply list_elem_of_In|]. split; [reflexivity|].
  intros Hnil. rewrite Hnil in Htruthy. discriminate.
Qed.

(** The cursor never leaves the text backwards, and no window is wider
    than the chunk size. *)
Lemma chunk_windows_bounds (self : DocumentProcessor.t) (text : str)
    (fuel : nat) :
  0 < DocumentProcessor.chunk_size self ->
  forall start ws,
    0 <= start ->
    DocumentProcessor.chunk_windows_from fuel self text start = Some ws ->
    forall w, w ∈ ws ->
      0 <= w.1 < w.2 /\ w.2 <= w.1 + DocumentProcessor.chunk_size self.
Proof.
  intros Hsize. induction fuel as [|fuel IH]; intros start ws Hstart Hws w Hw;
    [discriminate|].
  rewrite chunk_windows_from_S in Hws.
  destruct (start <? len text); [|injection Hws as <-; inversion Hw].
  pose proof (next_end_past_midpoint self text start Hsize) as Hmid.
  pose proof (next_end_le_limit self text start Hstart ltac:(lia)) as Hlim.
  assert (Hhalf : 0 <= DocumentProcessor.chunk_size self / 2)
    by (apply Z.div_pos; lia).
  set (e := DocumentProcessor.next_end self text start) in *.
  destruct ((e - DocumentProcessor.chunk_overlap self <=? 0)
            || (e - DocumentProcessor.chunk_overlap self >=? len text))
    eqn:Hbreak.
  - injection Hws as <-. apply list_elem_of_singleton in Hw as ->. simpl. lia.
  - apply orb_false_elim in Hbreak as [Hb _]. apply Z.leb_gt in Hb.
    destruct (DocumentProcessor.chunk_windows_from fuel self text
                (e - DocumentProcessor.chunk_overlap self))
      as [ws'|] eqn:Hrec; [|discriminate].
    injection Hws as <-. apply elem_of_cons in Hw as [->|Hw].
    + simpl. lia.
    + apply (IH (e - DocumentProcessor.chunk_overlap self) ws');
        [lia|exact Hrec|exact Hw].
Qed.

(** X1. Whatever the configuration, every chunk [chunk_text] returns is
    non-empty, has no white space at either end, and occurs in the text as
    a run of consecutive characters. *)
Theorem chunk_text_chunks_trimmed
    (self : DocumentProcessor.t) (text : str) (fuel : nat)
    (chunks : list str) (c : str) :
  DocumentProcessor.chunk_text fuel self text = Some chunks ->
  c ∈ chunks ->
  trimmed c /\ substring_of c text.
Proof.
  rewrite chunk_text_windows. intros Hrun Hc.
  destruct (DocumentProcessor.chunk_windows fuel self text) as [ws|];
    [|discriminate].
  injection Hrun as <-.
  apply elem_of_emit in Hc as (w & _ & -> & Hne).
  split; [now apply strip_trimmed|].
  apply (substring_of_trans _ (slice text w.1 w.2)).
  - apply strip_substring.
  - apply slice_substring.
Qed.

Lemma chunk_text_chunks_trimmed_witness :
  let self := DocumentProcessor.__init__ 10 2 in
  let text := of_string "  The cat sat. The dog " in
  let chunks := [of_string "The cat"; of_string "at sat."; of_string "t. The";
                 of_string "he dog"] in
  DocumentProcessor.chunk_text 40 self text = Some chunks /\
  of_string "he dog" ∈ chunks /\
  trimmed (of_string "he dog") /\
  substring_of (of_string "he dog") text.
Proof.
  intros self text chunks.
  assert (H1 : DocumentProcessor.chunk_text 40 self text = Some chunks)
    by (vm_compute; reflexivity).
  assert (H2 : of_string "he dog" ∈ chunks)
    by (do 3 apply list_elem_of_further; apply list_elem_of_here).
  refine (conj H1 (conj H2 _)).
  exact (chunk_text_chunks_trimmed self text 40 chunks (of_string "he dog")
           H1 H2).
Defined.

(** X2. With a positive chunk size, no chunk [chunk_text] returns is
    longer than [chunk_size] characters, whatever the overlap. *)
Theorem chunk_text_chunk_size_bound
    (self : DocumentProcessor.t) (text : str) (fuel : nat)
    (chunks : list str) (c : str) :
  0 < DocumentProcessor.chunk_size self ->
  DocumentProcessor.chunk_text fuel self text = Some chunks ->
  c ∈ chunks ->
  len c <= DocumentProcessor.chunk_size self.
Proof.
  intros Hsize. rewrite chunk_text_windows. intros Hrun Hc.
  destruct (DocumentProcessor.chunk_windows fuel self text) as [ws|] eqn:Hws;
    [|discriminate].
  injection Hrun as <-.
  apply elem_of_emit in Hc as (w & Hw & -> & _).
  destruct (chunk_windows_bounds self text fuel Hsize 0 ws ltac:(lia) Hws w Hw)
    as [Hpos Hwidth].
  pose proof (substring_of_length _ _ (strip_substring (slice text w.1 w.2))).
  pose proof (slice_length text w.1 w.2 ltac:(lia)). lia.
Qed.

Lemma chunk_text_chunk_size_bound_witness :
  let self := DocumentProcessor.__init__ 10 9 in
  let text := of_string "aaaaaa.bbbbbbbbbbbbbbbbb" in
  0 < DocumentProcessor.chunk_size self /\
  DocumentProcessor.chunk_text 40 self text = Some [of_string "aaaaaa."] /\
  of_string "aaaaaa." ∈ [of_string "aaaaaa."] /\
  len (of_string "aaaaaa.") <= DocumentProcessor.chunk_size self.
Proof.
  intros self text.
  assert (H1 : 0 < DocumentProcessor.chunk_size self) by (simpl; lia).
  assert (H2 : DocumentProcessor.chunk_text 40 self text
               = Some [of_string "aaaaaa."]) by (vm_compute; reflexivity).
  assert (H3 : of_string "aaaaaa." ∈ [of_string "aaaaaa."])
    by apply list_elem_of_here.
  refine (conj H1 (conj H2 (conj H3 _))).
  exact (chunk_text_chunk_size_bound self text 40 [of_string "aaaaaa."]
           (of_string "aaaaaa.") H1 H2 H3).
Defined.

Lemma chunk_windows_chain_from (self : DocumentProcessor.t) (text : str)
    (fuel : nat) :
  forall start ws,
    DocumentProcessor.chunk_windows_from fuel self text start = Some ws ->
    (forall w, head ws = Some w -> w.1 = start) /\
    forall (i : nat) w w',
      ws !! i = Some w -> ws !! S i = Some w' ->
      w'.1 = w.2 - DocumentProcessor.chunk_overlap self /\
      0 < w'.1 < len text.
Proof.
  induction fuel as [|fuel IH]; intros start ws Hws; [discriminate|].
  rewrite chunk_windows_from_S in Hws.
  destruct (start <? len text); [|injection Hws as <-; split; intros; done].
  set (e := DocumentProcessor.next_end self text start) in *.
  destruct ((e - DocumentProcessor.chunk_overlap self <=? 0)
            || (e - DocumentProcessor.chunk_overlap self >=? len text))
    eqn:Hbreak.
  - injection Hws as <-. split; [now intros w [= <-]|].
    intros i w w' _ Hw'. now destruct i.
  - apply orb_false_elim in Hbreak as [Hb1 Hb2].
    apply Z.leb_gt in Hb1. rewrite Z.geb_leb in Hb2. apply Z.leb_gt in Hb2.
    destruct (DocumentProcessor.chunk_windows_from fuel self text
                (e - DocumentProcessor.chunk_overlap self))
      as [ws'|] eqn:Hrec; [|discriminate].
    injection Hws as <-.
    destruct (IH _ ws' Hrec) as [Hhead Hchain].
    split; [now intros w [= <-]|].
    intros [|i] w w' Hw Hw'; simpl in Hw, Hw'.
    + injection Hw as <-. simpl.
      rewrite (Hhead w'); [lia|]. now destruct ws'; simplify_eq.
    + now apply (Hchain i).
Qed.

(** X3. The loop's cursor starts at 0, and each later window starts
    exactly [chunk_overlap] characters before the end of the one before
    it, strictly inside the text. *)
Theorem chunk_windows_overlap_chain
    (self : DocumentProcessor.t) (text : str) (fuel : nat)
    (ws : list (Z * Z)) :
  DocumentProcessor.chunk_windows fuel self text = Some ws ->
  (forall w, head ws = Some w -> w.1 = 0) /\
  forall (i : nat) w w',
    ws !! i = Some w -> ws !! S i = Some w' ->
    w'.1 = w.2 - DocumentProcessor.chunk_overlap self /\
    0 < w'.1 < len text.
Proof. apply chunk_windows_chain_from. Qed.

Lemma chunk_windows_overlap_chain_witness :
  let self := DocumentProcessor.__init__ 10 2 in
  let text := of_string "The cat sat. The dog ran off now" in
  let ws := [(0, 7); (5, 12); (10, 16); (14, 20); (18, 24); (22, 32);
             (30, 40)] in
  DocumentProcessor.chunk_windows 40 self text = Some ws /\
  (forall w, head ws = Some w -> w.1 = 0) /\
  forall (i : nat) w w',
    ws !! i = Some w -> ws !! S i = Some w' ->
    w'.1 = w.2 - DocumentProcessor.chunk_overlap self /\
    0 < w'.1 < len text.
Proof.
  intros self text ws.
  assert (H1 : DocumentProcessor.chunk_windows 40 self text = Some ws)
    by (vm_compute; reflexivity).
  refine (conj H1 _).
  exact (chunk_windows_overlap_chain self text 40 ws H1).
Defined.

(** X4. A text that is empty or holds only white space yields no chunk,
    whatever the configuration. *)
Theorem chunk_text_blank_text
    (self : DocumentProcessor.t) (text : str) (fuel : nat)
    (chunks : list str) :
  blank text ->
  DocumentProcessor.chunk_text fuel self text = Some chunks ->
  chunks = [].
Proof.
  intros Hblank. rewrite chunk_text_windows. intros Hrun.
  destruct (DocumentProcessor.chunk_windows fuel self text) as [ws|];
    [|discriminate].
  injection Hrun as <-.
  destruct (DocumentProcessor.emit text ws) as [|c chunks] eqn:Hemit;
    [reflexivity|]. exfalso.
  assert (Hc : c ∈ DocumentProcessor.emit text ws)
    by (rewrite Hemit; apply list_elem_of_here).
  apply elem_of_emit in Hc as (w & _ & -> & Hne). apply Hne.
  apply strip_blank.
  destruct (slice_substring text w.1 w.2) as (pre & post & Htext).
  apply (substring_of_blank _ text); [|exact Hblank].
  now exists pre, post.
Qed.

Lemma chunk_text_blank_text_witness :
  let self := DocumentProcessor.__init__ 4 1 in
  let text := of_string "         " in
  blank text /\
  DocumentProcessor.chunk_text 40 self text = Some [] /\
  @nil str = [].
Proof.
  intros self text.
  assert (H1 : blank text).
  { intros c Hc. apply list_elem_of_In in Hc.
    repeat (destruct Hc as [<-|Hc]; [reflexivity|]). destruct Hc. }
  assert (H2 : DocumentProcessor.chunk_text 40 self text = Some [])
    by (vm_compute; reflexivity).
  refine (conj H1 (conj H2 _)).
  exact (chunk_text_blank_text self text 40 [] H1 H2).
Defined.

(** ** The chunk annotator, further *)

Section AnnotatorFurther.
Import Dict DocumentProcessor.

(** The base dictionary holds the caller's items, and every dictionary the
    caller holds is still there. *)
Lemma or_empty_spec (h : heap) (metadata : option loc) :
  (or_empty h metadata).1 !! (or_empty h metadata).2
  = Some (caller_items h metadata) /\
  (forall l d, h !! l = Some d -> (or_empty h metadata).1 !! l = Some d).
Proof.
  unfold or_empty, caller_items, deref, alloc.
  destruct metadata as [l0|]; [destruct (h !! l0) as [d0|] eqn:Hl0;
    [destruct (decide (d0 = ∅)) as [->|]|]|]; simpl;
    (split; [try apply list_lookup_middle; try reflexivity; try exact Hl0
            | intros l d Hl; try exact Hl; now apply lookup_app_l_Some]).
Qed.

(** What [annotate] returns, in closed form. *)
Lemma annotate_spec (h : heap) (file_path : str) (metadata : option loc)
    (chunks : list str) :
  let h0 := (or_empty h metadata).1 in
  let base := (or_empty h metadata).2 in
  let d := with_provenance (caller_items h metadata) file_path in
  annotate h file_path metadata chunks
  = (<[base := d]> h0 ++ map (annotated d (len chunks)) (seqZ 0 (len chunks)),
     zip_with (fun chunk l => {| text := chunk; metadata := l |})
       chunks (seq (List.length h0) (List.length chunks))).
Proof.
  intros h0 base d. unfold annotate.
  destruct (or_empty_spec h metadata) as [Hbase _]. fold h0 base in Hbase.
  destruct (or_empty h metadata) as [h0' base'] eqn:Hor. simpl in h0, base.
  subst h0 base.
  assert (Hupd : update h0' base'
                   [("source"%string, VStr (basename file_path));
                    ("file_path"%string, VStr file_path)]
                 = <[base' := d]> h0').
  { unfold update, deref. rewrite Hbase. reflexivity. }
  rewrite Hupd.
  rewrite (annotate_loop_spec base' d (len chunks) chunks _ 0 []).
  - simpl. now rewrite length_insert.
  - apply list_lookup_insert_eq. now apply lookup_lt_Some in Hbase.
Qed.

End AnnotatorFurther.

(** X5. [process_document]'s annotation gives the chunk at position [j] a
    record with that chunk's text and a dictionary holding
    [chunk_index = j], [total_chunks = len(chunks)], the file's base name
    as [source] and the path as [file_path]; every other key holds what
    the caller's metadata held. *)
Theorem annotate_ordinals_and_provenance
    (h : Dict.heap) (file_path : str) (metadata : option Dict.loc)
    (chunks : list str) (j : nat) (chunk : str) :
  chunks !! j = Some chunk ->
  exists p d,
    (DocumentProcessor.annotate h file_path metadata chunks).2 !! j = Some p /\
    DocumentProcessor.text p = chunk /\
    (DocumentProcessor.annotate h file_path metadata chunks).1
      !! DocumentProcessor.metadata p = Some d /\
    d !! "chunk_index"%string = Some (Dict.VInt (Z.of_nat j)) /\
    d !! "total_chunks"%string = Some (Dict.VInt (len chunks)) /\
    d !! "source"%string = Some (Dict.VStr (basename file_path)) /\
    d !! "file_path"%string = Some (Dict.VStr file_path) /\
    forall k, k ∉ annotation_keys ->
              d !! k = caller_items h metadata !! k.
Proof.
  intros Hj. rewrite annotate_spec. simpl.
  set (h0 := (Dict.or_empty h metadata).1).
  set (base := (Dict.or_empty h metadata).2).
  set (b := with_provenance (caller_items h metadata) file_path).
  assert (Hlt : (j < List.length chunks)%nat) by now apply lookup_lt_Some in Hj.
  exists {| DocumentProcessor.text := chunk;
            DocumentProcessor.metadata := (List.length h0 + j)%nat |},
         (annotated b (len chunks) (Z.of_nat j)).
  split.
  { rewrite lookup_zip_with, Hj. simpl.
    now rewrite (proj2 (lookup_seq (List.length h0) (List.length chunks) j _)
                   (conj eq_refl Hlt)). }
  split; [reflexivity|]. simpl. split.
  { rewrite lookup_app_r by (rewrite length_insert; lia).
    rewrite length_insert, Nat.add_comm, Nat.add_sub.
    change map with (@fmap list _). rewrite list_lookup_fmap.
    rewrite (proj2 (lookup_seqZ 0 (len chunks) j (Z.of_nat j)));
      [reflexivity|]. unfold len. lia. }
  unfold annotated, b, with_provenance.
  repeat split.
  - now rewrite lookup_insert_ne, lookup_insert_eq.
  - now rewrite lookup_insert_eq.
  - rewrite !lookup_insert_ne by discriminate. apply lookup_insert_eq.
  - rewrite !lookup_insert_ne by discriminate. apply lookup_insert_eq.
  - intros k Hk. unfold annotation_keys in Hk.
    rewrite !lookup_insert_ne; [reflexivity|..]; intros <-; apply Hk;
      repeat (first [apply list_elem_of_here | apply list_elem_of_further]).
Qed.

Lemma annotate_ordinals_and_provenance_witness :
  let caller : Dict.Metadata :=
    {[ "filename"%string := Dict.VStr (of_string "a.txt") ]} in
  let h := [caller] in
  let file_path := of_string "/docs/a.txt" in
  let chunks := [of_string "alpha"; of_string "beta"] in
  chunks !! 1%nat = Some (of_string "beta") /\
  exists p d,
    (DocumentProcessor.annotate h file_path (Some 0%nat) chunks).2 !! 1%nat
      = Some p /\
    DocumentProcessor.text p = of_string "beta" /\
    (DocumentProcessor.annotate h file_path (Some 0%nat) chunks).1
      !! DocumentProcessor.metadata p = Some d /\
    d !! "chunk_index"%string = Some (Dict.VInt (Z.of_nat 1)) /\
    d !! "total_chunks"%string = Some (Dict.VInt (len chunks)) /\
    d !! "source"%string = Some (Dict.VStr (basename file_path)) /\
    d !! "file_path"%string = Some (Dict.VStr file_path) /\
    forall k, k ∉ annotation_keys ->
              d !! k = caller_items h (Some 0%nat) !! k.
Proof.
  intros caller h file_path chunks.
  assert (H1 : chunks !! 1%nat = Some (of_string "beta")) by reflexivity.
  refine (conj H1 _).
  exact (annotate_ordinals_and_provenance h file_path (Some 0%nat) chunks
           1%nat (of_string "beta") H1).
Defined.

(** X7. [process_document] changes no dictionary the caller holds other
    than a non-empty one passed as [metadata]: with no metadata, with an
    empty one, or when loading the file fails, every dictionary is after
    the call what it was before. *)
Theorem process_document_frame
    (fuel : nat) (self : DocumentProcessor.t) (h h' : Dict.heap)
    (file_path : str) (loaded : result str) (metadata : option Dict.loc)
    (r : result (list DocumentProcessor.ProcessedChunk))
    (l : Dict.loc) (d : Dict.Metadata) :
  DocumentProcessor.process_document fuel self h file_path loaded metadata
  = Some (h', r) ->
  h !! l = Some d ->
  (metadata = Some l -> d = ∅ \/ exists e, loaded = Raise e) ->
  h' !! l = Some d.
Proof.
  unfold DocumentProcessor.process_document. intros Hrun Hl Hother.
  destruct loaded as [text|e]; [|now injection Hrun as <- _].
  destruct (DocumentProcessor.chunk_text fuel self text) as [chunks|];
    [|discriminate].
  pose proof (annotate_keeps_other_metadata h file_path metadata chunks l d)
    as Hkeep.
  destruct (DocumentProcessor.annotate h file_path metadata chunks)
    as [h1 processed].
  injection Hrun as <- _. simpl in Hkeep. apply Hkeep; [|exact Hl].
  assert (Hlt : (l < List.length h)%nat) by now apply lookup_lt_Some in Hl.
  unfold Dict.or_empty, Dict.alloc.
  destruct metadata as [l0|]; [|simpl; lia].
  destruct (h !! l0) as [d0|] eqn:Hl0; [|simpl; lia].
  destruct (decide (d0 = ∅)) as [->|Hne]; [simpl; lia|].
  simpl. intros ->. destruct (Hother eq_refl) as [->|[e He]];
    [congruence|discriminate].
Qed.

Lemma process_document_frame_witness :
  let other : Dict.Metadata :=
    {[ "owner"%string := Dict.VStr (of_string "me") ]} in
  let h := [other; ∅] in
  let self := DocumentProcessor.__init__ 5 0 in
  let file_path := of_string "/docs/a.txt" in
  let run := DocumentProcessor.process_document 40 self h file_path
               (Ok (of_string "alphabeta")) (Some 1%nat) in
  run = Some ((DocumentProcessor.annotate h file_path (Some 1%nat)
                 [of_string "alpha"; of_string "beta"]).1,
              Ok (DocumentProcessor.annotate h file_path (Some 1%nat)
                    [of_string "alpha"; of_string "beta"]).2) /\
  h !! 1%nat = Some ∅ /\
  (Some 1%nat = Some 1%nat ->
   (∅ : Dict.Metadata) = ∅ \/ exists e, Ok (of_string "alphabeta") = Raise e) /\
  (DocumentProcessor.annotate h file_path (Some 1%nat)
     [of_string "alpha"; of_string "beta"]).1 !! 1%nat = Some ∅.
Proof.
  intros other h self file_path run.
  assert (H1 : run = Some ((DocumentProcessor.annotate h file_path (Some 1%nat)
                              [of_string "alpha"; of_string "beta"]).1,
                           Ok (DocumentProcessor.annotate h file_path
                                 (Some 1%nat)
                                 [of_string "alpha"; of_string "beta"]).2)).
  { subst run. unfold DocumentProcessor.process_document.
    replace (DocumentProcessor.chunk_text 40 self (of_string "alphabeta"))
      with (Some [of_string "alpha"; of_string "beta"])
      by (vm_compute; reflexivity).
    now destruct (DocumentProcessor.annotate h file_path (Some 1%nat)
                    [of_string "alpha"; of_string "beta"]). }
  assert (H2 : h !! 1%nat = Some ∅) by reflexivity.
  assert (H3 : Some 1%nat = Some 1%nat ->
               (∅ : Dict.Metadata) = ∅
               \/ exists e, Ok (of_string "alphabeta") = Raise e)
    by (intros _; left; reflexivity).
  refine (conj H1 (conj H2 (conj H3 _))).
  exact (process_document_frame 40 self h _ file_path
           (Ok (of_string "alphabeta")) (Some 1%nat) _ 1%nat ∅ H1 H2 H3).
Defined.

(** ** The context retriever, further *)

Section RetrieverFurther.
Context {num : Type} `{PyNum num} (svc : Services num).

(** [search] makes its calls in a fixed order and stops at the first one
    that fails. *)
Lemma search_trace (vs : VectorStore.t) (query : str) (n_results : Z)
    (where_ : option Dict.Metadata) :
  retrieval_trace (VectorStore.embedding_model vs) query n_results
    (fst (VectorStore.search svc vs query n_results where_)).
Proof.
  unfold VectorStore.search, VectorStore._generate_embedding,
    call, bind, catch, lift, ret, retrieval_trace.
  destruct (ollama_embeddings svc (VectorStore.embedding_model vs) query)
    as [[embedding|]|e]; simpl; [|now left..].
  destruct (collection_count svc) as [count|e]; simpl; [|right; now left].
  right. right. exists embedding, count.
  destruct (collection_query svc [embedding] (Z.min n_results count) where_)
    as [results|e]; simpl; [|reflexivity].
  now destruct (VectorStore.actual_results results).
Qed.

Lemma retrieve_context_cases (self : RAGService.t) (query : str)
    (n_results : Z) (min_similarity : num) :
  fst (RAGService.retrieve_context svc self query n_results min_similarity)
  = fst (VectorStore.search svc (RAGService.vector_store self) query
           n_results None) /\
  (snd (RAGService.retrieve_context svc self query n_results min_similarity)
   = Ok []
   \/ exists results contexts,
        snd (VectorStore.search svc (RAGService.vector_store self) query
               n_results None) = Ok results /\
        RAGService.extract_contexts results min_similarity = Ok contexts /\
        snd (RAGService.retrieve_context svc self query n_results
               min_similarity) = Ok contexts).
Proof.
  unfold RAGService.retrieve_context.
  destruct (VectorStore.search svc (RAGService.vector_store self) query
              n_results None) as [tr [results|e]];
    unfold bind, catch, lift, ret; simpl.
  - destruct (RAGService.extract_contexts results min_similarity) eqn:Hx;
      simpl; rewrite ?app_nil_r; (split; [reflexivity|]).
    + right. eexists results, _.
      split; [reflexivity|]. split; [exact Hx|reflexivity].
    + now left.
  - rewrite app_nil_r. split; [reflexivity|now left].
Qed.

Lemma improved_retrieve_context_cases (self : ImprovedRAGService.t)
    (query : str) (n_results : Z) (min_similarity : num) :
  fst (ImprovedRAGService.retrieve_context svc self query n_results
         min_similarity)
  = fst (VectorStore.search svc (ImprovedRAGService.vector_store self) query
           n_results None) /\
  (snd (ImprovedRAGService.retrieve_context svc self query n_results
          min_similarity) = Ok []
   \/ exists results contexts,
        snd (VectorStore.search svc (ImprovedRAGService.vector_store self)
               query n_results None) = Ok results /\
        ImprovedRAGService.extract_contexts results min_similarity
        = Ok contexts /\
        snd (ImprovedRAGService.retrieve_context svc self query n_results
               min_similarity) = Ok contexts).
Proof.
  unfold ImprovedRAGService.retrieve_context.
  destruct (VectorStore.search svc (ImprovedRAGService.vector_store self)
              query n_results None) as [tr [results|e]];
    unfold bind, catch, lift, ret; simpl.
  - destruct (ImprovedRAGService.extract_contexts results min_similarity)
      eqn:Hx; simpl; rewrite ?app_nil_r; (split; [reflexivity|]).
    + right. eexists results, _.
      split; [reflexivity|]. split; [exact Hx|reflexivity].
    + now left.
  - rewrite app_nil_r. split; [reflexivity|now left].
Qed.

(** Whatever the answer looks like, the loop only appends records that
    pass the floor, taken from the documents in their order. *)
Lemma retrieve_loop_appends (results : QueryResult num) (min_similarity : num) :
  forall docs i contexts out,
    RAGService.retrieve_loop results min_similarity i docs contexts = Ok out ->
    exists new,
      out = contexts ++ new /\
      Forall (passes_floor min_similarity) new /\
      map RAGService.text new `sublist_of` docs.
Proof.
  induction docs as [|doc docs IH]; intros i contexts out Hout; simpl in Hout.
  - injection Hout as <-. exists []. rewrite app_nil_r.
    repeat split; constructor.
  - unfold rbind in Hout.
    destruct (RAGService.distance_at results i) as [d|]; [|discriminate].
    destruct (geb (sub one d) min_similarity) eqn:Hfloor.
    + destruct (RAGService.metadata_at results i) as [m|]; [|discriminate].
      apply IH in Hout as (new & -> & Hnew & Hsub).
      eexists (_ :: new). rewrite <- app_assoc. split; [reflexivity|].
      split; [constructor; [exact Hfloor|exact Hnew]|].
      simpl. now constructor.
    + apply IH in Hout as (new & -> & Hnew & Hsub).
      exists new. repeat split; [exact Hnew|now constructor].
Qed.

Lemma improved_retrieve_loop_appends (results : QueryResult num)
    (min_similarity : num) :
  forall docs i contexts out,
    ImprovedRAGService.retrieve_loop results min_similarity i docs contexts
    = Ok out ->
    exists new,
      out = contexts ++ new /\
      Forall (passes_floor min_similarity) new /\
      map RAGService.text new `sublist_of` docs.
Proof.
  induction docs as [|doc docs IH]; intros i contexts out Hout; simpl in Hout.
  - injection Hout as <-. exists []. rewrite app_nil_r.
    repeat split; constructor.
  - unfold rbind in Hout.
    destruct (RAGService.distance_at results i) as [d|]; [|discriminate].
    destruct (RAGService.metadata_at results i) as [[m|]|]; [|discriminate..].
    destruct (geb (sub one d) min_similarity) eqn:Hfloor.
    + apply IH in Hout as (new & -> & Hnew & Hsub).
      eexists (_ :: new). rewrite <- app_assoc. split; [reflexivity|].
      split; [constructor; [exact Hfloor|exact Hnew]|].
      simpl. now constructor.
    + apply IH in Hout as (new & -> & Hnew & Hsub).
      exists new. repeat split; [exact Hnew|now constructor].
Qed.

Lemma extract_contexts_sound (results : QueryResult num) (min_similarity : num)
    (contexts : list (RAGService.ContextRecord num)) :
  RAGService.extract_contexts results min_similarity = Ok contexts ->
  Forall (passes_floor min_similarity) contexts /\
  forall docs, first_row (documents results) docs ->
               map RAGService.text contexts `sublist_of` docs.
Proof.
  unfold RAGService.extract_contexts. intros Hx.
  destruct (documents results) as [| |[|row rows]] eqn:Hdocs;
    try discriminate;
    try (injection Hx as <-; split; [constructor|];
         intros docs [rest Hrow]; simplify_eq; apply sublist_nil_l).
  destruct (truthy row).
  - apply retrieve_loop_appends in Hx as (new & -> & Hnew & Hsub).
    split; [exact Hnew|]. intros docs [rest Hrow]. now simplify_eq.
  - injection Hx as <-. split; [constructor|]. intros docs _.
    apply sublist_nil_l.
Qed.

Lemma improved_extract_contexts_sound (results : QueryResult num)
    (min_similarity : num) (contexts : list (RAGService.ContextRecord num)) :
  ImprovedRAGService.extract_contexts results min_similarity = Ok contexts ->
  Forall (passes_floor min_similarity) contexts /\
  forall docs, first_row (documents results) docs ->
               map RAGService.text contexts `sublist_of` docs.
Proof.
  unfold ImprovedRAGService.extract_contexts. intros Hx.
  destruct (documents results) as [| |[|row rows]] eqn:Hdocs;
    try discriminate;
    try (injection Hx as <-; split; [constructor|];
         intros docs [rest Hrow]; simplify_eq; apply sublist_nil_l).
  destruct (truthy row).
  - apply improved_retrieve_loop_appends in Hx as (new & -> & Hnew & Hsub).
    split; [exact Hnew|]. intros docs [rest Hrow]. now simplify_eq.
  - injection Hx as <-. split; [constructor|]. intros docs _.
    apply sublist_nil_l.
Qed.

End RetrieverFurther.


(** X9. When the index answers, the records [retrieve_context] returns
    follow the order of the answer's documents: their texts are a
    subsequence of the first documents row, nothing reordered, repeated or
    made up. *)
Theorem retrieve_context_keeps_order {num : Type} `{PyNum num}
    (svc : Services num) (query : str) (n_results : Z) (min_similarity : num)
    (results : QueryResult num) (docs : list str) :
  first_row (documents results) docs ->
  (forall self,
     index_returns svc (RAGService.vector_store self) query n_results results ->
     exists contexts,
       snd (RAGService.retrieve_context svc self query n_results
              min_similarity) = Ok contexts /\
       map RAGService.text contexts `sublist_of` docs)
  /\
  (forall self,
     index_returns svc (ImprovedRAGService.vector_store self) query n_results
       results ->
     exists contexts,
       snd (ImprovedRAGService.retrieve_context svc self query n_results
              min_similarity) = Ok contexts /\
       map RAGService.text contexts `sublist_of` docs).
Proof.
  intros Hdocs.
  assert (Hdocs' : documents results <> Missing)
    by (destruct Hdocs as [rest ->]; discriminate).
  split; intros self Hidx;
    destruct (search_returns svc _ query n_results results Hidx Hdocs')
      as [tr Hsearch].
  - destruct (retrieve_context_cases svc self query n_results min_similarity)
      as [_ [-> | (results' & contexts & Hs & Hx & ->)]].
    + exists []. split; [reflexivity|apply sublist_nil_l].
    + rewrite Hsearch in Hs. injection Hs as <-.
      exists contexts. split; [reflexivity|].
      now apply (extract_contexts_sound results min_similarity contexts Hx).
  - destruct (improved_retrieve_context_cases svc self query n_results
                min_similarity)
      as [_ [-> | (results' & contexts & Hs & Hx & ->)]].
    + exists []. split; [reflexivity|apply sublist_nil_l].
    + rewrite Hsearch in Hs. injection Hs as <-.
      exists contexts. split; [reflexivity|].
      now apply (improved_extract_contexts_sound results min_similarity
                   contexts Hx).
Qed.

Lemma retrieve_context_keeps_order_witness :
  let results := (Samples.three_results 0.1 0.6 1.3)%float in
  let svc := Samples.serving [0.5%float] results in
  let docs := [of_string "copay"; of_string "referral"; of_string "dental"] in
  first_row (documents results) docs /\
  index_returns svc Samples.vs (of_string "copay?") 6 results /\
  exists contexts,
    snd (RAGService.retrieve_context svc Samples.rag (of_string "copay?") 6
           0.3%float) = Ok contexts /\
    map RAGService.text contexts `sublist_of` docs.
Proof.
  intros results svc docs.
  assert (H1 : first_row (documents results) docs) by (exists []; reflexivity).
  assert (H2 : index_returns svc Samples.vs (of_string "copay?") 6 results)
    by (exists [0.5%float], 3; repeat split; reflexivity).
  refine (conj H1 (conj H2 _)).
  exact (proj1 (retrieve_context_keeps_order svc (of_string "copay?") 6
                  0.3%float results docs H1) Samples.rag H2).
Defined.

(** X10. When the index fails after the query was embedded, [search]
    raises the index's error and [retrieve_context] turns it into the
    empty list: a failing count stops before any query is made, and a
    failing query was asked for [min(n_results, count)] results. *)
Theorem index_failure_absorbed {num : Type} `{PyNum num}
    (svc : Services num) (self : RAGService.t) (query : str) (n_results : Z)
    (min_similarity : num) (embedding : list num) :
  ollama_embeddings svc
    (VectorStore.embedding_model (RAGService.vector_store self)) query
  = Ok (Some embedding) ->
  let vs := RAGService.vector_store self in
  let embed := EvEmbeddings (VectorStore.embedding_model vs) query in
  (forall e,
     collection_count svc = Raise e ->
     VectorStore.search svc vs query n_results None
     = ([embed; EvCount], Raise e) /\
     RAGService.retrieve_context svc self query n_results min_similarity
     = ([embed; EvCount], Ok []))
  /\
  (forall count e,
     collection_count svc = Ok count ->
     collection_query svc [embedding] (Z.min n_results count) None = Raise e ->
     VectorStore.search svc vs query n_results None
     = ([embed; EvCount; EvQuery [embedding] (Z.min n_results count)],
        Raise e) /\
     RAGService.retrieve_context svc self query n_results min_similarity
     = ([embed; EvCount; EvQuery [embedding] (Z.min n_results count)],
        Ok [])).
Proof.
  intros Hemb vs embed. subst vs embed.
  unfold RAGService.retrieve_context, VectorStore.search,
    VectorStore._generate_embedding, call, bind, catch, lift, ret.
  rewrite Hemb. simpl.
  split.
  - intros e ->. simpl. split; reflexivity.
  - intros count e -> Hq. simpl. rewrite Hq. simpl. split; reflexivity.
Qed.

Lemma index_failure_absorbed_witness :
  let svc := @MoreSamples.query_down float [0.5%float] in
  let query := of_string "copay?" in
  let e := ServiceError (of_string "index unavailable") in
  let tr := [EvEmbeddings "mxbai-embed-large" query; EvCount;
             EvQuery [[0.5%float]] (Z.min 6 3)] in
  ollama_embeddings svc "mxbai-embed-large" query = Ok (Some [0.5%float]) /\
  VectorStore.search svc Samples.vs query 6 None = (tr, Raise e) /\
  RAGService.retrieve_context svc Samples.rag query 6 0.5%float = (tr, Ok []).
Proof.
  intros svc query e tr.
  assert (H1 : ollama_embeddings svc "mxbai-embed-large" query
               = Ok (Some [0.5%float])) by reflexivity.
  refine (conj H1 _).
  exact (proj2 (index_failure_absorbed svc Samples.rag query 6 0.5%float
                  [0.5%float] H1) 3 e eq_refl eq_refl).
Defined.

(** ** The prompt composer, further *)

Lemma slice_from_last {A : Type} (l : list A) (k : Z) :
  k < 0 ->
  slice_from l k = drop (List.length l - Z.to_nat (- k)) l.
Proof.
  intros Hk. unfold slice_from, slice_adjust, len.
  destruct (Z.ltb_spec k 0); [|lia]. f_equal. lia.
Qed.

Lemma recent_turns_spec (conversation_history : option (list Message)) :
  recent_turns conversation_history
    `suffix_of` default [] conversation_history /\
  (List.length (recent_turns conversation_history) <= 10)%nat.
Proof.
  destruct conversation_history as [history|]; simpl;
    [|split; [now exists []|lia]].
  rewrite (slice_from_last history (-10)) by lia. split.
  - eexists. symmetry. apply take_drop.
  - rewrite length_drop. lia.
Qed.

(** The context section is built exactly when every record has a metadata
    mapping; a record without one raises [AttributeError]. *)
Lemma context_sections_cases {num : Type}
    (contexts : list (RAGService.ContextRecord num)) :
  (Forall has_metadata contexts /\
   exists sections,
     RAGService.context_sections contexts = Ok sections /\
     List.length sections = List.length contexts)
  \/ (~ Forall has_metadata contexts /\
      RAGService.context_sections contexts = Raise AttributeError).
Proof.
  induction contexts as [|c contexts IH]; simpl.
  - left. split; [constructor|]. now exists [].
  - unfold RAGService.context_section, rbind.
    destruct (RAGService.metadata c) as [md|] eqn:Hmd.
    + destruct IH as [[Hall (sections & -> & Hlen)] | [Hnot ->]].
      * left. split; [constructor; [unfold has_metadata; now rewrite Hmd|exact Hall]|].
        eexists. split; [reflexivity|]. simpl. now rewrite Hlen.
      * right. split; [|reflexivity]. intros Hall. apply Hnot.
        now apply Forall_cons in Hall as [_ Hall].
    + right. split; [|reflexivity]. intros Hall.
      apply Forall_cons in Hall as [[md Hc] _]. congruence.
Qed.

(** X11. Whenever [chat] gets to build its message list, the list is one
    system-role message, then the last ten turns of the caller's history
    at most, then the user-role message holding the query: never more than
    twelve messages. *)
Theorem chat_messages_bounded {num : Type} (query : str)
    (conversation_history : option (list Message))
    (contexts : list (RAGService.ContextRecord num)) (messages : list Message) :
  RAGService.chat_messages query conversation_history contexts = Ok messages ->
  (exists system,
     messages = [RAGService.system_message system]
                ++ recent_turns conversation_history
                ++ [RAGService.user_message query]) /\
  recent_turns conversation_history
    `suffix_of` default [] conversation_history /\
  last messages = Some (RAGService.user_message query) /\
  (List.length messages <= 12)%nat.
Proof.
  intros Hmsgs.
  destruct (recent_turns_spec conversation_history) as [Hsuffix Hlen].
  assert (Hshape : exists system,
             messages = [RAGService.system_message system]
                        ++ recent_turns conversation_history
                        ++ [RAGService.user_message query]).
  { unfold RAGService.chat_messages, rbind in Hmsgs.
    destruct (truthy contexts).
    - destruct (RAGService.context_sections contexts) as [sections|];
        [|discriminate].
      injection Hmsgs as <-. eexists.
      destruct conversation_history as [[|m history]|]; reflexivity.
    - injection Hmsgs as <-. eexists.
      destruct conversation_history as [[|m history]|]; reflexivity. }
  split; [exact Hshape|]. split; [exact Hsuffix|].
  destruct Hshape as [system ->]. split.
  - rewrite app_assoc. apply last_snoc.
  - simpl. rewrite length_app. simpl. lia.
Qed.

Lemma chat_messages_bounded_witness :
  let turn := {| role := of_string "user"; content := of_string "hi" |} in
  let history := Some (replicate 13 turn) in
  let query := of_string "What is a copay?" in
  let messages :=
    [RAGService.system_message RAGService.no_context_system_message]
    ++ replicate 10 turn ++ [RAGService.user_message query] in
  RAGService.chat_messages (num := float) query history [] = Ok messages /\
  (exists system,
     messages = [RAGService.system_message system]
                ++ recent_turns history
                ++ [RAGService.user_message query]) /\
  recent_turns history `suffix_of` default [] history /\
  last messages = Some (RAGService.user_message query) /\
  (List.length messages <= 12)%nat.
Proof.
  intros turn history query messages.
  assert (H1 : RAGService.chat_messages (num := float) query history []
               = Ok messages) by reflexivity.
  refine (conj H1 _).
  exact (chat_messages_bounded query history [] messages H1).
Defined.

(** X12. [format_prompt_with_context] returns a prompt exactly when every
    context record has a metadata mapping, and raises [AttributeError]
    otherwise. For a non-empty sequence the prompt opens with the system
    prompt, the caller's or the default one, and closes with the query
    followed by the answer cue. *)
Theorem format_prompt_needs_metadata {num : Type} (query : str)
    (contexts : list (RAGService.ContextRecord num))
    (system_prompt : option str) :
  (Forall has_metadata contexts <->
   exists prompt,
     RAGService.format_prompt_with_context query contexts system_prompt
     = Ok prompt) /\
  (~ Forall has_metadata contexts ->
   RAGService.format_prompt_with_context query contexts system_prompt
   = Raise AttributeError) /\
  (contexts <> [] ->
   forall prompt,
     RAGService.format_prompt_with_context query contexts system_prompt
     = Ok prompt ->
     exists body,
       prompt = default RAGService.default_system_prompt system_prompt
                ++ body ++ query ++ nl ++ nl ++ of_string "ANSWER:").
Proof.
  unfold RAGService.format_prompt_with_context, rbind.
  destruct contexts as [|c contexts].
  { simpl. split; [split; [now exists query|constructor]|].
    split; [intros Hnot; contradiction Hnot; constructor|done]. }
  change (truthy (c :: contexts)) with true. cbv iota. simpl negb. cbv iota.
  destruct (context_sections_cases (c :: contexts))
    as [[Hall (sections & -> & _)] | [Hnot ->]].
  - split; [split; [eauto|intros _; exact Hall]|].
    split; [intros Hnot; contradiction|].
    intros _ prompt [= <-].
    exists (nl ++ nl ++ of_string "CONTEXT:" ++ nl
            ++ join (nl ++ nl) sections ++ nl ++ nl
            ++ of_string "USER QUESTION:" ++ nl).
    now rewrite <- !app_assoc.
  - split; [split; [intros Hall; contradiction|intros [prompt Hp]; discriminate]|].
    split; [reflexivity|]. intros _ prompt Hp. discriminate.
Qed.

Lemma format_prompt_cases {num : Type} (query : str)
    (contexts : list (RAGService.ContextRecord num))
    (system_prompt : option str) :
  (exists prompt,
     RAGService.format_prompt_with_context query contexts system_prompt
     = Ok prompt)
  \/ RAGService.format_prompt_with_context query contexts system_prompt
     = Raise AttributeError.
Proof.
  unfold RAGService.format_prompt_with_context, rbind.
  destruct (negb (truthy contexts)); [left; eauto|].
  destruct (context_sections_cases contexts)
    as [[_ (sections & -> & _)] | [_ ->]]; [left; eauto|now right].
Qed.

Lemma chat_messages_cases {num : Type} (query : str)
    (conversation_history : option (list Message))
    (contexts : list (RAGService.ContextRecord num)) :
  (exists messages,
     RAGService.chat_messages query conversation_history contexts
     = Ok messages)
  \/ RAGService.chat_messages query conversation_history contexts
     = Raise AttributeError.
Proof.
  unfold RAGService.chat_messages, rbind.
  destruct (truthy contexts); [|left; eauto].
  destruct (context_sections_cases contexts)
    as [[_ (sections & -> & _)] | [_ ->]]; [left; eauto|now right].
Qed.

(** X13. When the language model fails, [generate_response] and [chat]
    raise: no answer is made up. The error is the model's, unless a
    retrieved record without a metadata mapping stopped the composition
    before the model was called; with retrieval off it is always the
    model's. *)
Theorem completion_failure_propagates {num : Type} `{PyNum num}
    (svc : Services num) (self : RAGService.t) (query : str)
    (conversation_history : option (list Message))
    (system_prompt : option str) (use_context : bool) (n_context_docs : Z)
    (stream : bool) (e : exn) :
  (forall messages,
     ollama_chat svc (RAGService.llm_model self) messages stream = Raise e) ->
  let generated :=
    snd (RAGService.generate_response svc self query use_context
           n_context_docs system_prompt stream) in
  let chatted :=
    snd (RAGService.chat svc self query conversation_history use_context
           n_context_docs stream) in
  (generated = Raise e \/ generated = Raise AttributeError) /\
  (chatted = Raise e \/ chatted = Raise AttributeError) /\
  (use_context = false -> generated = Raise e /\ chatted = Raise e).
Proof.
  intros Hdown generated chatted. subst generated chatted.
  unfold RAGService.generate_response, RAGService.chat.
  assert (Hctx : exists tr contexts,
             (if use_context
              then RAGService.retrieve_context svc self query n_context_docs
                     zero
              else ret []) = (tr, Ok contexts)
             /\ (use_context = false -> contexts = [])).
  { destruct use_context; [|now exists [], []].
    destruct (retrieve_context_cases svc self query n_context_docs zero)
      as [_ Hcases].
    destruct (RAGService.retrieve_context svc self query n_context_docs zero)
      as [tr r]. simpl in Hcases.
    destruct Hcases as [-> | (results & contexts & _ & _ & ->)];
      eexists _, _; (split; [reflexivity|discriminate]). }
  destruct Hctx as (tr & contexts & -> & Hoff).
  unfold bind, catch, call, lift, ret.
  split; [|split].
  - destruct (truthy contexts).
    + destruct (format_prompt_cases query contexts system_prompt)
        as [[prompt ->] | ->]; simpl.
      * rewrite Hdown. simpl. now left.
      * now right.
    + simpl. rewrite Hdown. simpl. now left.
  - destruct (chat_messages_cases query conversation_history contexts)
      as [[messages ->] | ->]; simpl.
    + rewrite Hdown. simpl. now left.
    + now right.
  - intros Hfalse. rewrite (Hoff Hfalse).
    rewrite chat_messages_no_context. simpl. rewrite !Hdown. simpl.
    split; reflexivity.
Qed.

Lemma completion_failure_propagates_witness :
  let svc := MoreSamples.chat_down [0.5%float]
               (Samples.three_results 0.1 0.6 1.3)%float in
  let e := ServiceError (of_string "model not loaded") in
  let query := of_string "What is a copay?" in
  (forall messages, ollama_chat svc "llama3.2" messages false = Raise e) /\
  snd (RAGService.chat svc Samples.rag query None false 6 false) = Raise e.
Proof.
  intros svc e query.
  assert (H1 : forall messages,
             ollama_chat svc "llama3.2" messages false = Raise e)
    by (intros messages; reflexivity).
  refine (conj H1 _).
  exact (proj2 (proj2 (proj2 (completion_failure_propagates svc Samples.rag
                                query None None false 6 false e H1))
                      eq_refl)).
Defined.

(** ** The write path of the vector store *)

Section WritePath.
Import VectorStoreWrite.
Context {num : Type} (svc : Services num) (w : Writer num).

Lemma generate_embedding_returns (vs : VectorStore.t) (text : str)
    (embedding : list num) :
  embeds svc vs text embedding ->
  VectorStore._generate_embedding svc vs text
  = ([EvEmbeddings (VectorStore.embedding_model vs) text], Ok embedding).
Proof.
  unfold embeds, VectorStore._generate_embedding, call, bind, catch, lift, ret.
  now intros ->.
Qed.

Lemma generate_embeddings_return (vs : VectorStore.t) :
  forall texts embeddings,
    Forall2 (embeds svc vs) texts embeddings ->
    generate_embeddings svc vs texts
    = (map (EvEmbeddings (VectorStore.embedding_model vs)) texts,
       Ok embeddings).
Proof.
  induction 1 as [|text embedding texts embeddings Hemb _ IH];
    [reflexivity|].
  simpl. rewrite (generate_embedding_returns vs text embedding Hemb), IH.
  unfold bind, ret. simpl. now rewrite app_nil_r.
Qed.

Lemma generate_embeddings_stop (vs : VectorStore.t) (text : str)
    (post : list str) (e : exn) :
  embedding_fails svc vs text e ->
  forall pre embeddings,
    Forall2 (embeds svc vs) pre embeddings ->
    generate_embeddings svc vs (pre ++ text :: post)
    = (map (EvEmbeddings (VectorStore.embedding_model vs)) (pre ++ [text]),
       Raise e).
Proof.
  intros Hfail. induction 1 as [|t embedding pre embeddings Hemb _ IH].
  - simpl. now rewrite (generate_embedding_fails svc vs text e Hfail).
  - simpl. rewrite (generate_embedding_returns vs t embedding Hemb), IH.
    reflexivity.
Qed.

End WritePath.

(** X14. [add_documents] writes nothing unless every text was embedded:
    when the embedding of one text fails, the texts before it have been
    embedded, the ones after it are not, the index's [add] is never
    called, and the embedding error is raised. *)
Theorem add_documents_all_or_nothing {num : Type}
    (svc : Services num) (w : VectorStoreWrite.Writer num)
    (vs : VectorStore.t) (pre : list str) (text : str) (post : list str)
    (embeddings : list (list num)) (metadatas : option (list Dict.Metadata))
    (ids : option (list str)) (e : exn) :
  Forall2 (embeds svc vs) pre embeddings ->
  embedding_fails svc vs text e ->
  VectorStoreWrite.add_documents svc w vs (pre ++ text :: post) metadatas ids
  = (embedding_calls vs (pre ++ [text]), Raise e).
Proof.
  intros Hpre Hfail. unfold VectorStoreWrite.add_documents.
  rewrite (generate_embeddings_stop svc vs text post e Hfail pre embeddings
             Hpre).
  unfold VectorStoreWrite.reading, VectorStoreWrite.wbind,
    VectorStoreWrite.wcatch, VectorStoreWrite.wraise, embedding_calls.
  simpl. rewrite app_nil_r. f_equal. now rewrite map_map.
Qed.

Lemma add_documents_all_or_nothing_witness :
  let svc := WriteSamples.embeds_nonempty [0.5%float] in
  let e := ServiceError (of_string "empty prompt") in
  let pre := [of_string "copay"] in
  Forall2 (embeds svc Samples.vs) pre [[0.5%float]] /\
  embedding_fails svc Samples.vs [] e /\
  VectorStoreWrite.add_documents svc WriteSamples.writer Samples.vs
    (pre ++ [] :: [of_string "dental"]) None None
  = (embedding_calls Samples.vs (pre ++ [[]]), Raise e).
Proof.
  intros svc e pre.
  assert (H1 : Forall2 (embeds svc Samples.vs) pre [[0.5%float]])
    by (repeat constructor).
  assert (H2 : embedding_fails svc Samples.vs [] e) by (left; reflexivity).
  refine (conj H1 (conj H2 _)).
  exact (add_documents_all_or_nothing svc WriteSamples.writer Samples.vs pre []
           [of_string "dental"] [[0.5%float]] None None e H1 H2).
Defined.

(** X15. When every text is embedded, [add_documents] calls the index's
    [add] exactly once, after the last embedding, with one embedding per
    text in the texts' order and with the caller's identifiers, or with
    one generated identifier per text when none are given; what [add]
    raises is raised. *)
Theorem add_documents_single_write {num : Type}
    (svc : Services num) (w : VectorStoreWrite.Writer num)
    (vs : VectorStore.t) (texts : list str) (embeddings : list (list num))
    (metadatas : option (list Dict.Metadata)) (ids : option (list str)) :
  Forall2 (embeds svc vs) texts embeddings ->
  let ids' := default (VectorStoreWrite.generate_ids w texts) ids in
  VectorStoreWrite.add_documents svc w vs texts metadatas ids
  = (embedding_calls vs texts
       ++ [VectorStoreWrite.EvAdd embeddings texts metadatas ids'],
     VectorStoreWrite.collection_add w embeddings texts metadatas ids') /\
  List.length embeddings = List.length texts /\
  (ids = None -> List.length ids' = List.length texts).
Proof.
  intros Hall ids'. split; [|split].
  - unfold VectorStoreWrite.add_documents.
    rewrite (generate_embeddings_return svc vs texts embeddings Hall).
    unfold VectorStoreWrite.reading, VectorStoreWrite.wbind,
      VectorStoreWrite.wcatch, VectorStoreWrite.wraise,
      VectorStoreWrite.wcall, embedding_calls. simpl.
    replace (match ids with
             | Some ids0 => ids0
             | None => VectorStoreWrite.generate_ids w texts
             end) with ids' by now destruct ids.
    rewrite map_map.
    destruct (VectorStoreWrite.collection_add w embeddings texts metadatas
                ids'); simpl; now rewrite ?app_nil_r.
  - symmetry. now apply Forall2_length in Hall.
  - intros ->. subst ids'. simpl. unfold VectorStoreWrite.generate_ids.
    now rewrite length_map, length_seq.
Qed.

Lemma add_documents_single_write_witness :
  let svc := WriteSamples.embeds_nonempty [0.5%float] in
  let texts := [of_string "copay"; of_string "dental"] in
  let embeddings := [[0.5%float]; [0.5%float]] in
  let ids := [of_string "id-0"; of_string "id-1"] in
  Forall2 (embeds svc Samples.vs) texts embeddings /\
  VectorStoreWrite.add_documents svc WriteSamples.writer Samples.vs texts
    None None
  = (embedding_calls Samples.vs texts
       ++ [VectorStoreWrite.EvAdd embeddings texts None ids],
     Ok tt).
Proof.
  intros svc texts embeddings ids.
  assert (H1 : Forall2 (embeds svc Samples.vs) texts embeddings)
    by (repeat constructor).
  refine (conj H1 _).
  exact (proj1 (add_documents_single_write svc WriteSamples.writer Samples.vs
                  texts embeddings None None H1)).
Defined.

(** ** The loader's chunker *)

(** X16. For a text that is not blank and no longer than [chunk_size],
    the loader's [chunk_text] returns exactly one chunk, whatever the
    overlap: the trimmed text, with the caller's metadata,
    [chunk_index = 0], [char_start = 0] and [char_end = chunk_size]. *)
Theorem loader_chunk_text_short_text
    (self : DocumentLoader.t) (text : str) (metadata : Dict.Metadata)
    (fuel : nat) :
  len text <= DocumentLoader.chunk_size self ->
  strip text <> [] ->
  (2 <= fuel)%nat ->
  DocumentLoader.chunk_text fuel self text metadata
  = Some [(strip text,
           DocumentLoader.chunk_metadata metadata 0 0
             (DocumentLoader.chunk_size self))].
Proof.
  intros Hshort Hink Hfuel.
  destruct fuel as [|[|fuel]]; [lia..|].
  assert (Hpos : 0 < len text).
  { pose proof (len_nonneg text).
    destruct (Z.eq_dec (len text) 0) as [Hz|]; [|lia].
    apply len_nil_iff in Hz. subst text. now contradiction Hink. }
  unfold DocumentLoader.chunk_text.
  cbn [DocumentLoader.chunk_loop].
  destruct (Z.ltb_spec 0 (len text)); [|lia].
  assert (He : DocumentLoader.next_end self text 0
               = DocumentLoader.chunk_size self).
  { unfold DocumentLoader.next_end. rewrite Z.add_0_l.
    now destruct (Z.ltb_spec (DocumentLoader.chunk_size self) (len text));
      [lia|]. }
  rewrite He, slice_all by lia. rewrite (truthy_true _ Hink).
  destruct (Z.ltb_spec (DocumentLoader.chunk_size self) (len text)); [lia|].
  destruct (Z.ltb_spec (len text) (len text)); [lia|]. reflexivity.
Qed.

Lemma loader_chunk_text_short_text_witness :
  let self := {| DocumentLoader.chunk_size := 10;
                 DocumentLoader.chunk_overlap := 5 |} in
  let text := of_string "abcdefghi" in
  let metadata : Dict.Metadata :=
    {[ "source"%string := Dict.VStr (of_string "a.txt") ]} in
  len text <= DocumentLoader.chunk_size self /\
  strip text <> [] /\
  (2 <= 40)%nat /\
  DocumentLoader.chunk_text 40 self text metadata
  = Some [(strip text, DocumentLoader.chunk_metadata metadata 0 0 10)].
Proof.
  intros self text metadata.
  assert (H1 : len text <= DocumentLoader.chunk_size self)
    by (vm_compute; discriminate).
  assert (H2 : strip text <> []) by (vm_compute; discriminate).
  assert (H3 : (2 <= 40)%nat) by lia.
  refine (conj H1 (conj H2 (conj H3 _))).
  exact (loader_chunk_text_short_text self text metadata 40 H1 H2 H3).
Defined.

Lemma loader_chunk_metadata_ok (text : str) (metadata : Dict.Metadata)
    (j : nat) (s e : Z) :
  strip (slice text s e) <> [] ->
  loader_chunk_ok text metadata j
    (strip (slice text s e),
     DocumentLoader.chunk_metadata metadata (Z.of_nat j) s e).
Proof.
  intros Hne. unfold loader_chunk_ok, DocumentLoader.chunk_metadata. simpl.
  split; [now apply strip_trimmed|]. split.
  { apply (substring_of_trans _ (slice text s e));
      [apply strip_substring|apply slice_substring]. }
  split; [rewrite !lookup_insert_ne by discriminate; apply lookup_insert_eq|].
  split.
  { exists s, e. split; [|split; [apply lookup_insert_eq|reflexivity]].
    rewrite lookup_insert_ne by discriminate. apply lookup_insert_eq. }
  intros k Hk. unfold loader_keys in Hk.
  rewrite !lookup_insert_ne; [reflexivity|..]; intros <-; apply Hk;
    repeat (first [apply list_elem_of_here | apply list_elem_of_further]).
Qed.

Lemma loader_chunk_loop_ok (self : DocumentLoader.t) (text : str)
    (metadata : Dict.Metadata) (fuel : nat) :
  forall start chunks out,
    DocumentLoader.chunk_loop fuel self text metadata start chunks = Some out ->
    (forall j p, chunks !! j = Some p -> loader_chunk_ok text metadata j p) ->
    forall j p, out !! j = Some p -> loader_chunk_ok text metadata j p.
Proof.
  induction fuel as [|fuel IH]; intros start chunks out Hout Hok;
    [discriminate|].
  cbn [DocumentLoader.chunk_loop] in Hout.
  destruct (start <? len text); [|now injection Hout as <-].
  refine (IH _ _ _ Hout _).
  set (e := DocumentLoader.next_end self text start).
  destruct (truthy (strip (slice text start e))) eqn:Htruthy; [|exact Hok].
  intros j p Hj. apply lookup_app_Some in Hj as [Hj | [Hge Hj]];
    [now apply Hok|].
  apply list_lookup_singleton_Some in Hj as [Hj <-].
  assert (j = List.length chunks) as -> by lia.
  apply loader_chunk_metadata_ok. intros Hnil. rewrite Hnil in Htruthy.
  discriminate.
Qed.

(** X17. Whatever the loader's [chunk_text] returns, the chunk at
    position [j] is a non-empty, trimmed piece of the text, its metadata
    holds [chunk_index = j] and the window [char_start, char_end) it was
    cut from, and every other key holds what the caller's metadata held. *)
Theorem loader_chunk_text_chunks_ok
    (self : DocumentLoader.t) (text : str) (metadata : Dict.Metadata)
    (fuel : nat) (chunks : list (str * Dict.Metadata)) (j : nat)
    (p : str * Dict.Metadata) :
  DocumentLoader.chunk_text fuel self text metadata = Some chunks ->
  chunks !! j = Some p ->
  loader_chunk_ok text metadata j p.
Proof.
  intros Hrun. apply (loader_chunk_loop_ok self text metadata fuel 0 []);
    [exact Hrun|]. intros j' p' Hj'. discriminate.
Qed.

Lemma loader_chunk_text_chunks_ok_witness :
  let self := {| DocumentLoader.chunk_size := 20;
                 DocumentLoader.chunk_overlap := 0 |} in
  let text := of_string "Plans differ. Ask us! Copays vary by tier." in
  let metadata : Dict.Metadata :=
    {[ "source"%string := Dict.VStr (of_string "a.txt") ]} in
  let chunks :=
    [(of_string "Plans differ.",
      DocumentLoader.chunk_metadata metadata 0 0 13);
     (of_string "Ask us!",
      DocumentLoader.chunk_metadata metadata 1 13 21);
     (of_string "Copays vary by tier",
      DocumentLoader.chunk_metadata metadata 2 21 41);
     (of_string ".",
      DocumentLoader.chunk_metadata metadata 3 41 61)] in
  DocumentLoader.chunk_text 40 self text metadata = Some chunks /\
  chunks !! 1%nat
  = Some (of_string "Ask us!",
          DocumentLoader.chunk_metadata metadata 1 13 21) /\
  loader_chunk_ok text metadata 1
    (of_string "Ask us!", DocumentLoader.chunk_metadata metadata 1 13 21).
Proof.
  intros self text metadata chunks.
  assert (H1 : DocumentLoader.chunk_text 40 self text metadata = Some chunks)
    by (vm_compute; reflexivity).
  assert (H2 : chunks !! 1%nat
               = Some (of_string "Ask us!",
                       DocumentLoader.chunk_metadata metadata 1 13 21))
    by reflexivity.
  refine (conj H1 (conj H2 _)).
  exact (loader_chunk_text_chunks_ok self text metadata 40 chunks 1%nat _
           H1 H2).
Defined.

(** ** The messages of the improved service's chat *)

(** X18. Whenever the improved service's [chat] gets to build its message
    list, the list is the caller's whole history followed by the user-role
    message holding the query, preceded by one system-role message exactly
    when there are context records: with no context and no history it is
    the single user-role message. *)
Theorem improved_chat_messages_shape {num : Type} (query : str)
    (conversation_history : option (list Message))
    (contexts : list (RAGService.ContextRecord num)) (messages : list Message) :
  ImprovedChat.chat_messages query conversation_history contexts
  = Ok messages ->
  (contexts = [] ->
   messages = all_turns conversation_history
              ++ [RAGService.user_message query]) /\
  (contexts <> [] ->
   exists system,
     messages = [RAGService.system_message system]
                ++ all_turns conversation_history
                ++ [RAGService.user_message query]) /\
  last messages = Some (RAGService.user_message query) /\
  List.length messages
  = (List.length (all_turns conversation_history)
     + if truthy contexts then 2 else 1)%nat.
Proof.
  unfold ImprovedChat.chat_messages, rbind, all_turns. intros Hmsgs.
  destruct contexts as [|c contexts].
  - assert (messages = default [] conversation_history
                       ++ [RAGService.user_message query]) as ->
      by (destruct conversation_history as [[|m history]|];
          simpl in Hmsgs; now injection Hmsgs as <-).
    split; [reflexivity|]. split; [done|].
    split; [apply last_snoc|]. rewrite length_app. simpl. lia.
  - change (truthy (c :: contexts)) with true in *. cbv iota in Hmsgs.
    destruct (ImprovedChat.context_sections 1 (c :: contexts))
      as [sections|]; [|discriminate].
    set (system := ImprovedChat.system_message (join (nl ++ nl) sections))
      in Hmsgs.
    assert (messages = [RAGService.system_message system]
                       ++ default [] conversation_history
                       ++ [RAGService.user_message query]) as ->
      by (destruct conversation_history as [[|m history]|];
          simpl in Hmsgs; now injection Hmsgs as <-).
    split; [done|]. split; [intros _; now exists system|].
    split; [rewrite app_assoc; apply last_snoc|].
    rewrite !length_app. simpl. lia.
Qed.

Lemma improved_chat_messages_shape_witness :
  let query := of_string "What is a copay?" in
  ImprovedChat.chat_messages (num := float) query None []
  = Ok [RAGService.user_message query] /\
  (@nil (RAGService.ContextRecord float) = [] ->
   [RAGService.user_message query]
   = all_turns None ++ [RAGService.user_message query]).
Proof.
  intros query.
  assert (H1 : ImprovedChat.chat_messages (num := float) query None []
               = Ok [RAGService.user_message query]) by reflexivity.
  refine (conj H1 _).
  exact (proj1 (improved_chat_messages_shape query None []
                  [RAGService.user_message query] H1)).
Defined.

(** ** Retrieval and completion together *)

(** X19. One answer makes its calls in a fixed order: the retrieval's
    calls first, when retrieval is on, then the language model at most
    once. [generate_response] hands the model a single user-role message;
    [chat] hands it a list that ends with the user-role message holding the
    query. *)
Theorem answer_calls_in_order {num : Type} `{PyNum num}
    (svc : Services num) (self : RAGService.t) (query : str)
    (conversation_history : option (list Message))
    (system_prompt : option str) (use_context : bool) (n_context_docs : Z)
    (stream : bool) :
  answer_trace self query use_context n_context_docs stream
    (fun messages => exists prompt,
                       messages = [RAGService.user_message prompt])
    (fst (RAGService.generate_response svc self query use_context
            n_context_docs system_prompt stream)) /\
  answer_trace self query use_context n_context_docs stream
    (fun messages => last messages = Some (RAGService.user_message query))
    (fst (RAGService.chat svc self query conversation_history use_context
            n_context_docs stream)).
Proof.
  assert (Hctx : exists tr contexts,
             (if use_context
              then RAGService.retrieve_context svc self query n_context_docs
                     zero
              else ret []) = (tr, Ok contexts)
             /\ (if use_context
                 then retrieval_trace
                        (VectorStore.embedding_model
                           (RAGService.vector_store self))
                        query n_context_docs tr
                 else tr = [])).
  { destruct use_context; [|now exists [], []].
    destruct (retrieve_context_cases svc self query n_context_docs zero)
      as [Htr Hcases].
    pose proof (search_trace svc (RAGService.vector_store self) query
                  n_context_docs None) as Hshape.
    rewrite <- Htr in Hshape.
    destruct (RAGService.retrieve_context svc self query n_context_docs zero)
      as [tr r]. simpl in Hcases, Hshape.
    destruct Hcases as [-> | (results & contexts & _ & _ & ->)];
      eexists _, _; (split; [reflexivity|exact Hshape]). }
  destruct Hctx as (tr & contexts & Hctx & Htr).
  unfold RAGService.generate_response, RAGService.chat. rewrite Hctx.
  unfold bind, catch, call, lift, ret, answer_trace.
  split.
  - destruct (truthy contexts);
      [destruct (format_prompt_cases query contexts system_prompt)
         as [[prompt ->] | ->]|];
      simpl;
      try (exists tr, []; rewrite !app_nil_r;
           split; [reflexivity|]; split; [exact Htr|now left]).
    + exists tr, [EvChat (RAGService.llm_model self)
                    [RAGService.user_message prompt] stream].
      split; [|split; [exact Htr|right; eauto]].
      destruct (ollama_chat svc (RAGService.llm_model self)
                  [RAGService.user_message prompt] stream) as [response|e];
        simpl; [|now rewrite app_nil_r].
      destruct (RAGService.read_response stream response); simpl;
        now rewrite ?app_nil_r.
    + exists tr, [EvChat (RAGService.llm_model self)
                    [RAGService.user_message query] stream].
      split; [|split; [exact Htr|right; eauto]].
      destruct (ollama_chat svc (RAGService.llm_model self)
                  [RAGService.user_message query] stream) as [response|e];
        simpl; [|now rewrite app_nil_r].
      destruct (RAGService.read_response stream response); simpl;
        now rewrite ?app_nil_r.
  - destruct (RAGService.chat_messages query conversation_history contexts)
      as [messages|e] eqn:Hmsgs; simpl.
    + exists tr, [EvChat (RAGService.llm_model self) messages stream].
      split; [|split; [exact Htr|right; exists messages; split;
                                  [reflexivity|]]].
      * destruct (ollama_chat svc (RAGService.llm_model self) messages stream)
          as [response|e]; simpl; [|now rewrite app_nil_r].
        destruct (RAGService.read_response stream response); simpl;
          now rewrite ?app_nil_r.
      * unfold RAGService.chat_messages, rbind in Hmsgs.
        destruct (truthy contexts);
          [destruct (RAGService.context_sections contexts); [|discriminate]|];
          injection Hmsgs as <-; apply last_snoc.
    + exists tr, []. rewrite !app_nil_r.
      split; [reflexivity|]. split; [exact Htr|now left].
Qed.
